(** * GORTRASHSOCIAL: settlement and social handlers of [src/App.jsx]

    A shallow embedding of the event handlers of the [App] component
    ([handleLike], [handleComment], [handleRepost], [handleFollowToggle],
    [handleBlock], [handleBuyTicket], [handleSellTicket], [handleTip]) and of
    the mirror-store calls they make, followed by the properties of the
    settlement and synchronisation layer.  The rest of the component that
    reads or writes the store is embedded after them ([handlePost] with
    [uploadImage], [handleSaveProfile], [handleMarkNotificationRead],
    [fetchNotifications], [handleCommentSubmit], [getTrendingUsers]), with
    the properties that hold of every operation of a client.

    Modelling choices.
    - The mirror store (the Supabase tables) is a record of finite maps keyed
      by primary key; [comments] and [notifications], which are only ever
      appended to by the handlers, are lists in insertion order.
    - The React state a handler closes over ([currentWalletAddress],
      [connected], [currentUserProfile], [walletData]) is the [Client]
      record.  It is a cache: it is filled by the fetch functions and is not
      re-read by the handlers.  Arrays and objects reached from it are shared
      with the handler, so an in-place [push] or [count -= 1] is a write to
      the cache.
    - JavaScript numbers are integers ([Z]): the amounts the interface passes
      are [parseInt] results and the constant 10, and the counters are
      integer columns.  Sums and differences are exact, as they are in the
      source for integers of magnitude up to 2^53; beyond that the source
      rounds and the embedding does not.  Columns are taken to be non-null, so [x || 0] on a
      number is [x] and [x || []] on an array is [x].
    - Every awaited call to the outside world is a step of a state-and-error
      monad.  What the outside world answers is scripted in the state:
      [faults] holds, per mirror-store call, whether that call reports an
      error, and [chain] holds, per transfer, how far the ledger lets it go.
      An exhausted script means that nothing fails.
    - Generated keys: the id of a new post is a key the table does not use;
      the id of a notification is its position in the table, which is kept
      in the order of creation.
    - Text typed into the interface is a string of code units below 256. *)

From Stdlib Require Import ZArith Lia Ascii.
From stdpp Require Import gmap strings list fin_maps pretty sorting.

Local Open Scope Z_scope.
Local Open Scope string_scope.
Local Open Scope list_scope.

(** ** Data model (the columns the handlers read or write) *)

Abbreviation address := string (only parsing).
Abbreviation post_id := nat (only parsing).

(** An element of [wallets.tickets_holding]. *)
Record Ticket := mkTicket {
  t_wallet_address : address;
  t_count : Z;
  t_username : string
}.

(** A row of [wallets]; the key [wallet_address] is the map key. *)
Record Wallet := mkWallet {
  gor_balance : Z;
  tickets_holding : list Ticket
}.

(** A row of [profiles]; the key [wallet_address] is the map key. *)
Record Profile := mkProfile {
  username : string;
  bio : string;
  followers : list address;
  following : list address;
  tickets_earned : Z;
  blocked_users : list address
}.

(** A row of [posts]; the key [id] is the map key. *)
Record Post := mkPost {
  author_address : address;
  p_username : string;
  content : string;
  image_url : option string;
  likes : list address;
  reposts : list address;
  likes_count : Z;
  reposts_count : Z;
  comments_count : Z
}.

Record Comment := mkComment {
  c_post_id : post_id;
  c_author_address : address;
  c_username : string;
  c_content : string
}.

Record Notification := mkNotification {
  recipient_address : address;
  n_type : string;
  message : string;
  n_post_id : option post_id;
  sender_address : address;
  read : bool
}.

Record Mirror := mkMirror {
  profiles : gmap address Profile;
  wallets : gmap address Wallet;
  posts : gmap post_id Post;
  comments : list Comment;
  notifications : list Notification
}.

(** The React state a handler closes over.  [publicKey] and
    [currentWalletAddress] are one value ([publicKey.toBase58()]). *)
Record Client := mkClient {
  currentWalletAddress : option address;
  connected : bool;
  currentUserProfile : option Profile;
  walletData : Wallet
}.

(** ** The outside world *)

Inductive Error :=
  | PGRST116          (* [.single()] found no row *)
  | UniqueViolation   (* [insert] on an existing primary key *)
  | NetworkError      (* a mirror-store call that reports an error *)
  | LedgerPrepare     (* address derivation or blockhash fetch throws *)
  | LedgerRejected    (* [sendTransaction] throws *)
  | LedgerTimeout.    (* [confirmTransaction] throws *)

(** How far the ledger lets one transfer go. *)
Inductive LedgerOutcome :=
  | Confirmed
  | PrepareThrows
  | SendThrows
  | ConfirmThrows.

(** A transaction handed to [sendTransaction]. *)
Record Transfer := mkTransfer {
  tr_source : address;
  tr_destination : address;
  tr_amount : Z
}.

Inductive Severity := SevSuccess | SevError | SevInfo.

(** The text of a toast; [Failure p e] is the template [p + error.message]. *)
Inductive Text :=
  | Plain (s : string)
  | Failure (prefix : string) (e : Error).

Record State := mkState {
  mirror : Mirror;
  client : Client;
  submitted : list Transfer;
  toasts : list (Text * Severity);
  faults : list bool;
  chain : list LedgerOutcome
}.

Definition with_mirror (m : Mirror) (st : State) : State :=
  mkState m (client st) (submitted st) (toasts st) (faults st) (chain st).
Definition with_client (c : Client) (st : State) : State :=
  mkState (mirror st) c (submitted st) (toasts st) (faults st) (chain st).
Definition with_submitted (l : list Transfer) (st : State) : State :=
  mkState (mirror st) (client st) l (toasts st) (faults st) (chain st).
Definition with_toasts (l : list (Text * Severity)) (st : State) : State :=
  mkState (mirror st) (client st) (submitted st) l (faults st) (chain st).
Definition with_faults (l : list bool) (st : State) : State :=
  mkState (mirror st) (client st) (submitted st) (toasts st) l (chain st).
Definition with_chain (l : list LedgerOutcome) (st : State) : State :=
  mkState (mirror st) (client st) (submitted st) (toasts st) (faults st) l.

(** ** The monad of handlers: state, and exceptions for [throw] *)

Inductive Res (A : Type) :=
  | Ret (a : A)
  | Thrown (e : Error).
Arguments Ret {A} a.
Arguments Thrown {A} e.

Definition M (A : Type) : Type := State -> Res A * State.

Definition ret {A} (a : A) : M A := fun st => (Ret a, st).

Definition bind {A B} (m : M A) (k : A -> M B) : M B :=
  fun st =>
    match m st with
    | (Ret a, st') => k a st'
    | (Thrown e, st') => (Thrown e, st')
    end.

Definition throw {A} (e : Error) : M A := fun st => (Thrown e, st).

(** [try { body } catch (error) { handler error }] *)
Definition try_catch (body : M unit) (handler : Error -> M unit) : M unit :=
  fun st =>
    match body st with
    | (Ret tt, st') => (Ret tt, st')
    | (Thrown e, st') => handler e st'
    end.

Definition gets {A} (f : State -> A) : M A := fun st => (Ret (f st), st).
Definition modify (f : State -> State) : M unit := fun st => (Ret tt, f st).

Notation "x <- m ;; k" := (bind m (fun x => k))
  (at level 100, m at next level, k at level 200, right associativity).
Notation "m ;;; k" := (bind m (fun _ => k))
  (at level 100, k at level 200, right associativity).

(** The state a handler leaves behind (a handler returns [undefined]). *)
Definition run {A} (m : M A) (st : State) : State := snd (m st).

Definition showMessage (msg : Text) (type : Severity) : M unit :=
  modify (fun st => with_toasts (toasts st ++ [(msg, type)]) st).

(** The toasts shown between [st] and [st']. *)
Definition shown (st st' : State) : list (Text * Severity) :=
  drop (length (toasts st)) (toasts st').

(** ** Mirror Store Gateway: the Supabase calls the handlers make

    Each call consumes one entry of [faults].  A call that reports an error
    leaves the store as it was. *)

Definition next_fault : M bool :=
  fun st =>
    match faults st with
    | [] => (Ret false, st)
    | f :: fs => (Ret f, with_faults fs st)
    end.

Definition set_profiles (t : gmap address Profile) (m : Mirror) : Mirror :=
  mkMirror t (wallets m) (posts m) (comments m) (notifications m).
Definition set_wallets (t : gmap address Wallet) (m : Mirror) : Mirror :=
  mkMirror (profiles m) t (posts m) (comments m) (notifications m).
Definition set_posts (t : gmap post_id Post) (m : Mirror) : Mirror :=
  mkMirror (profiles m) (wallets m) t (comments m) (notifications m).
Definition set_comments (t : list Comment) (m : Mirror) : Mirror :=
  mkMirror (profiles m) (wallets m) (posts m) t (notifications m).
Definition set_notifications (t : list Notification) (m : Mirror) : Mirror :=
  mkMirror (profiles m) (wallets m) (posts m) (comments m) t.

Section Gateway.
Context {K : Type} `{Countable K} {V : Type}.
Variable table : Mirror -> gmap K V.
Variable set_table : gmap K V -> Mirror -> Mirror.

(** [from(t).select(cols).eq(key, k).single()]: the row, or the error
    [PGRST116] when there is none. *)
Definition single (k : K) : M (Error + V) :=
  f <- next_fault ;;
  if (f : bool) then ret (inl NetworkError)
  else
    m <- gets mirror ;;
    ret (match table m !! k with
         | Some v => inr v
         | None => inl PGRST116
         end).

(** [from(t).update(patch).eq(key, k)]: patches the row when there is one,
    and reports no error when there is none.  The filter is the key alone. *)
Definition update (k : K) (patch : V -> V) : M (option Error) :=
  f <- next_fault ;;
  if (f : bool) then ret (Some NetworkError)
  else
    modify (fun st =>
      with_mirror (set_table (alter patch k (table (mirror st))) (mirror st)) st) ;;;
    ret None.

(** [from(t).insert(row)] of a row with primary key [k]. *)
Definition insert_row (k : K) (row : V) : M (option Error) :=
  f <- next_fault ;;
  if (f : bool) then ret (Some NetworkError)
  else
    m <- gets mirror ;;
    match table m !! k with
    | Some _ => ret (Some UniqueViolation)
    | None =>
        modify (fun st =>
          with_mirror (set_table (<[k := row]> (table (mirror st))) (mirror st)) st) ;;;
        ret None
    end.
End Gateway.

Definition posts_single := single posts.
Definition posts_update := update posts set_posts.
Definition profiles_single := single profiles.
Definition profiles_update := update profiles set_profiles.
Definition profiles_insert := insert_row profiles set_profiles.
Definition wallets_single := single wallets.
Definition wallets_update := update wallets set_wallets.
Definition wallets_insert := insert_row wallets set_wallets.

(** Modelled from the spec: the default of the column
    [wallets.tickets_holding], which the table definition (not in the source
    tree) gives to a row that [upsert] creates from a balance alone.  The
    wallet record is a balance and a list of holding entries; a new one holds
    no ticket, as in the row [fetchWalletData] inserts. *)
Definition default_tickets_holding : list Ticket := [].

(** [from('wallets').upsert({wallet_address, gor_balance}, {onConflict:
    'wallet_address'})]: sets the balance of the row, or creates the row. *)
Definition wallets_upsert (k : address) (balance : Z) : M (option Error) :=
  f <- next_fault ;;
  if (f : bool) then ret (Some NetworkError)
  else
    modify (fun st =>
      let m := mirror st in
      let row :=
        match wallets m !! k with
        | Some w => mkWallet balance (tickets_holding w)
        | None => mkWallet balance default_tickets_holding
        end in
      with_mirror (set_wallets (<[k := row]> (wallets m)) m) st) ;;;
    ret None.

(** [from('comments').insert(row)]; the id is generated. *)
Definition comments_insert (row : Comment) : M (option Error) :=
  f <- next_fault ;;
  if (f : bool) then ret (Some NetworkError)
  else
    modify (fun st =>
      with_mirror (set_comments (comments (mirror st) ++ [row]) (mirror st)) st) ;;;
    ret None.

(** [from('notifications').insert(row)]; the id is generated. *)
Definition notifications_insert (row : Notification) : M (option Error) :=
  f <- next_fault ;;
  if (f : bool) then ret (Some NetworkError)
  else
    modify (fun st =>
      with_mirror
        (set_notifications (notifications (mirror st) ++ [row]) (mirror st)) st) ;;;
    ret None.

(** ** Ledger Client

    The ledger part of [handleBuyTicket] (lines 925-944) and of [handleTip]
    (lines 1093-1112): derive the two token accounts, build the transfer,
    fetch a blockhash, [sendTransaction], [confirmTransaction].  A transfer
    is recorded in [submitted] when [sendTransaction] is called. *)

Definition next_outcome : M LedgerOutcome :=
  fun st =>
    match chain st with
    | [] => (Ret Confirmed, st)
    | o :: os => (Ret o, with_chain os st)
    end.

Definition sendTransaction (t : Transfer) : M unit :=
  modify (fun st => with_submitted (submitted st ++ [t]) st).

Definition transfer (source destination : address) (amount : Z) : M unit :=
  o <- next_outcome ;;
  match o with
  | PrepareThrows => throw LedgerPrepare
  | SendThrows =>
      sendTransaction (mkTransfer source destination amount) ;;;
      throw LedgerRejected
  | ConfirmThrows =>
      sendTransaction (mkTransfer source destination amount) ;;;
      throw LedgerTimeout
  | Confirmed =>
      sendTransaction (mkTransfer source destination amount)
  end.

(** ** Small JavaScript idioms *)

(** [s || d] on strings: the empty string is falsy. *)
Definition or_else (s d : string) : string :=
  match s with
  | EmptyString => d
  | _ => s
  end.

(** [l.findIndex(ticket => ticket.wallet_address === a)], with the element
    found at that index; [None] is -1. *)
Definition findIndex (a : address) (l : list Ticket) : option (nat * Ticket) :=
  list_find (fun t => t_wallet_address t = a) l.

(** [if (error) throw error] *)
Definition check (e : option Error) : M unit :=
  match e with
  | Some err => throw err
  | None => ret tt
  end.

(** [const { data, error } = ...; if (error) throw error], then [data]. *)
Definition unwrap {V} (r : Error + V) : M V :=
  match r with
  | inl err => throw err
  | inr data => ret data
  end.

Definition dquote : string := String "034"%char EmptyString.

(** [`User_${currentWalletAddress.substring(0, 8)}`] *)
Definition defaultUsername (me : address) : string :=
  "User_" +:+ String.substring 0 8 me.

(** [currentUserProfile.username || 'Someone'] *)
Definition senderName (prof : Profile) : string :=
  or_else (username prof) "Someone".

Definition connectFirst : M unit :=
  showMessage (Plain "Please connect your wallet first.") SevError.

(** ** Local State Cache: the two fetch functions that fill [Client] *)

Definition setWalletData (w : Wallet) : M unit :=
  modify (fun st =>
    let c := client st in
    with_client
      (mkClient (currentWalletAddress c) (connected c) (currentUserProfile c) w) st).

Definition setCurrentUserProfile (p : Profile) : M unit :=
  modify (fun st =>
    let c := client st in
    with_client
      (mkClient (currentWalletAddress c) (connected c) (Some p) (walletData c)) st).

(** [fetchWalletData], lines 502-528; its effect runs only with a connected
    address. *)
Definition fetchWalletData : M unit :=
  c <- gets client ;;
  match currentWalletAddress c with
  | None => ret tt
  | Some me =>
      r <- wallets_single me ;;
      match r with
      | inr data => setWalletData data
      | inl PGRST116 =>
          insertError <- wallets_insert me (mkWallet 0 []) ;;
          match insertError with
          | Some _ => showMessage (Plain "Failed to create default wallet.") SevError
          | None => setWalletData (mkWallet 0 [])
          end
      | inl _ => showMessage (Plain "Failed to load wallet data.") SevError
      end
  end.

(** [fetchCurrentUserProfile], lines 446-481. *)
Definition fetchCurrentUserProfile : M unit :=
  c <- gets client ;;
  match currentWalletAddress c with
  | None => ret tt
  | Some me =>
      r <- profiles_single me ;;
      match r with
      | inr data => setCurrentUserProfile data
      | inl PGRST116 =>
          let fresh :=
            mkProfile (defaultUsername me) "Hello, I am new here!" [] [] 0 [] in
          insertError <- profiles_insert me fresh ;;
          match insertError with
          | Some _ => showMessage (Plain "Failed to create default profile.") SevError
          | None => setCurrentUserProfile fresh
          end
      | inl _ => showMessage (Plain "Failed to load your profile.") SevError
      end
  end.

(** ** Social handlers *)

Definition set_likes (l : list address) (n : Z) (p : Post) : Post :=
  mkPost (author_address p) (p_username p) (content p) (image_url p)
         l (reposts p) n (reposts_count p) (comments_count p).

Definition set_reposts (l : list address) (n : Z) (p : Post) : Post :=
  mkPost (author_address p) (p_username p) (content p) (image_url p)
         (likes p) l (likes_count p) n (comments_count p).

Definition set_comments_count (n : Z) (p : Post) : Post :=
  mkPost (author_address p) (p_username p) (content p) (image_url p)
         (likes p) (reposts p) (likes_count p) (reposts_count p) n.

(** [handleLike], lines 651-695. *)
Definition handleLike (postId : post_id) (isCurrentlyLiked : bool) : M unit :=
  c <- gets client ;;
  match currentWalletAddress c with
  | None => connectFirst
  | Some me =>
      try_catch
        (r <- posts_single postId ;;
         match r with
         | inl _ => showMessage (Plain "Failed to like/unlike post.") SevError
         | inr postData =>
             let updatedLikes :=
               if isCurrentlyLiked
               then filter (fun addr => addr ≠ me) (likes postData)
               else likes postData ++ [me] in
             let newLikesCount :=
               if isCurrentlyLiked
               then Z.max 0 (likes_count postData - 1)
               else likes_count postData + 1 in
             updateError <- posts_update postId (set_likes updatedLikes newLikesCount) ;;
             match updateError with
             | Some _ => showMessage (Plain "Failed to like/unlike post.") SevError
             | None =>
                 showMessage
                   (Plain (if isCurrentlyLiked then "Post unliked!" else "Post liked!"))
                   SevSuccess
             end
         end)
        (fun _ => showMessage (Plain "Failed to like/unlike post.") SevError)
  end.

(** [handleComment], lines 697-749. *)
Definition handleComment (postId : post_id) (commentContent : string) : M unit :=
  c <- gets client ;;
  match currentWalletAddress c, currentUserProfile c with
  | Some me, Some prof =>
      try_catch
        (r <- posts_single postId ;;
         match r with
         | inl _ => showMessage (Plain "Failed to add comment.") SevError
         | inr postData =>
             commentInsertError <-
               comments_insert
                 (mkComment postId me
                    (or_else (username prof) (defaultUsername me)) commentContent) ;;
             match commentInsertError with
             | Some _ => showMessage (Plain "Failed to add comment.") SevError
             | None =>
                 let newCommentsCount := comments_count postData + 1 in
                 posts_update postId (set_comments_count newCommentsCount) ;;;
                 showMessage (Plain "Comment added!") SevSuccess ;;;
                 if decide (author_address postData ≠ me) then
                   notifications_insert
                     (mkNotification (author_address postData) "comment"
                        (senderName prof +:+ " commented on your post: " +:+ dquote
                           +:+ String.substring 0 30 commentContent +:+ "..." +:+ dquote)
                        (Some postId) me false) ;;;
                   ret tt
                 else ret tt
             end
         end)
        (fun _ => showMessage (Plain "Failed to add comment.") SevError)
  | _, _ => connectFirst
  end.

(** [handleRepost], lines 751-806. *)
Definition handleRepost (postId : post_id) : M unit :=
  c <- gets client ;;
  match currentWalletAddress c, currentUserProfile c with
  | Some me, Some prof =>
      try_catch
        (r <- posts_single postId ;;
         match r with
         | inl _ => showMessage (Plain "Failed to repost post.") SevError
         | inr postData =>
             if decide (me ∉ reposts postData) then
               let updatedReposts := reposts postData ++ [me] in
               let newRepostsCount := reposts_count postData + 1 in
               updateError <-
                 posts_update postId (set_reposts updatedReposts newRepostsCount) ;;
               match updateError with
               | Some _ => showMessage (Plain "Failed to repost post.") SevError
               | None =>
                   showMessage (Plain "Post reposted!") SevSuccess ;;;
                   if decide (author_address postData ≠ me) then
                     notifications_insert
                       (mkNotification (author_address postData) "repost"
                          (senderName prof +:+ " reposted your post!")
                          (Some postId) me false) ;;;
                     ret tt
                   else ret tt
               end
             else showMessage (Plain "You've already reposted this.") SevError
         end)
        (fun _ => showMessage (Plain "Failed to repost post.") SevError)
  | _, _ => connectFirst
  end.

Definition set_following (l : list address) (p : Profile) : Profile :=
  mkProfile (username p) (bio p) (followers p) l (tickets_earned p) (blocked_users p).

Definition set_followers (l : list address) (p : Profile) : Profile :=
  mkProfile (username p) (bio p) l (following p) (tickets_earned p) (blocked_users p).

Definition set_blocked_users (l : list address) (p : Profile) : Profile :=
  mkProfile (username p) (bio p) (followers p) (following p) (tickets_earned p) l.

Definition set_tickets_earned (n : Z) (p : Profile) : Profile :=
  mkProfile (username p) (bio p) (followers p) (following p) n (blocked_users p).

(** [handleFollowToggle], lines 815-877.  [currentUserFollowing.push] is a
    push onto the array of the cached profile. *)
Definition handleFollowToggle (targetAddress : address) (isFollowing : bool) : M unit :=
  c <- gets client ;;
  match currentWalletAddress c, currentUserProfile c with
  | Some me, Some prof =>
      if decide (me = targetAddress) then
        showMessage (Plain "You cannot follow/unfollow yourself.") SevError
      else
        try_catch
          (let currentUserFollowing :=
             if isFollowing
             then filter (fun addr => addr ≠ targetAddress) (following prof)
             else following prof ++ [targetAddress] in
           (if isFollowing then ret tt
            else setCurrentUserProfile (set_following currentUserFollowing prof)) ;;;
           currentUserUpdateError <-
             profiles_update me (set_following currentUserFollowing) ;;
           check currentUserUpdateError ;;;
           r <- profiles_single targetAddress ;;
           targetUserProfile <- unwrap r ;;
           let targetUserFollowers :=
             if isFollowing
             then filter (fun addr => addr ≠ me) (followers targetUserProfile)
             else followers targetUserProfile ++ [me] in
           targetUserUpdateError <-
             profiles_update targetAddress (set_followers targetUserFollowers) ;;
           check targetUserUpdateError ;;;
           showMessage
             (Plain (if isFollowing then "Unfollowed user." else "Followed user!"))
             SevSuccess ;;;
           if negb isFollowing && bool_decide (targetAddress ≠ me) then
             notifications_insert
               (mkNotification targetAddress "follow"
                  (senderName prof +:+ " started following you!") None me false) ;;;
             ret tt
           else ret tt)
          (fun e => showMessage (Failure "Failed to follow/unfollow: " e) SevError)
  | _, _ => connectFirst
  end.

(** [handleBlock], lines 879-906.  [updatedBlocked.push] is a push onto the
    array of the cached profile, before the store is written. *)
Definition handleBlock (targetAddress : address) : M unit :=
  c <- gets client ;;
  match currentWalletAddress c, currentUserProfile c with
  | Some me, Some prof =>
      if decide (me = targetAddress) then
        showMessage (Plain "You cannot block yourself.") SevError
      else
        try_catch
          (if decide (targetAddress ∉ blocked_users prof) then
             let updatedBlocked := blocked_users prof ++ [targetAddress] in
             setCurrentUserProfile (set_blocked_users updatedBlocked prof) ;;;
             e <- profiles_update me (set_blocked_users updatedBlocked) ;;
             check e ;;;
             showMessage (Plain "User blocked successfully.") SevSuccess
           else showMessage (Plain "User is already blocked.") SevError)
          (fun e => showMessage (Failure "Failed to block user: " e) SevError)
  | _, _ => connectFirst
  end.

(** ** Settlement Coordinator *)

Definition set_gor_balance (b : Z) (w : Wallet) : Wallet :=
  mkWallet b (tickets_holding w).

Definition set_count (n : Z) (t : Ticket) : Ticket :=
  mkTicket (t_wallet_address t) n (t_username t).

(** [handleBuyTicket], lines 908-1010. *)
Definition handleBuyTicket (targetAddress : address) : M unit :=
  c <- gets client ;;
  match currentWalletAddress c, currentUserProfile c, connected c with
  | Some me, Some prof, true =>
      if decide (me = targetAddress) then
        showMessage (Plain "You cannot buy a ticket for yourself.") SevError
      else if decide (gor_balance (walletData c) < 1) then
        showMessage
          (Plain "Insufficient GOR balance to buy a ticket. Please fund your wallet.")
          SevError
      else
        try_catch
          (showMessage (Plain "Initiating ticket purchase transaction...") SevInfo ;;;
           transfer me targetAddress 1 ;;;
           showMessage (Plain "Ticket purchase transaction confirmed on-chain!")
             SevSuccess ;;;
           let holding := tickets_holding (walletData c) in
           updatedTicketsHolding <-
             match findIndex targetAddress holding with
             | Some (existingTicketIndex, t) =>
                 ret (<[existingTicketIndex := set_count (t_count t + 1) t]> holding)
             | None =>
                 r <- profiles_single targetAddress ;;
                 targetProfile <- unwrap r ;;
                 ret (holding ++ [mkTicket targetAddress 1 (username targetProfile)])
             end ;;
           walletUpdateError <-
             wallets_update me
               (fun _ => mkWallet (gor_balance (walletData c) - 1) updatedTicketsHolding) ;;
           check walletUpdateError ;;;
           r <- profiles_single targetAddress ;;
           targetUser <- unwrap r ;;
           profileUpdateError <-
             profiles_update targetAddress
               (set_tickets_earned (tickets_earned targetUser + 1)) ;;
           check profileUpdateError ;;;
           showMessage (Plain "Ticket purchase successful and Supabase updated!")
             SevSuccess ;;;
           notifications_insert
             (mkNotification targetAddress "ticket_buy"
                (senderName prof +:+ " bought a ticket for you!") None me false) ;;;
           ret tt)
          (fun e => showMessage (Failure "Failed to buy ticket: " e) SevError)
  | _, _, _ => connectFirst
  end.

(** [handleSellTicket], lines 1012-1069.  The spread copies the array, not
    the ticket objects: [count -= 1] decrements the ticket of the cached
    [walletData], while [splice] removes from the copy only. *)
Definition handleSellTicket (targetAddress : address) : M unit :=
  c <- gets client ;;
  match currentWalletAddress c, currentUserProfile c, connected c with
  | Some me, Some prof, true =>
      try_catch
        (let holding := tickets_holding (walletData c) in
         match findIndex targetAddress holding with
         | None =>
             showMessage (Plain "You don't hold any tickets for this user.") SevError
         | Some (existingTicketIndex, t) =>
             if decide (t_count t = 0) then
               showMessage (Plain "You don't hold any tickets for this user.") SevError
             else
               showMessage (Plain "Initiating ticket sale transaction...") SevInfo ;;;
               let sold := set_count (t_count t - 1) t in
               let shared := <[existingTicketIndex := sold]> holding in
               setWalletData (mkWallet (gor_balance (walletData c)) shared) ;;;
               let updatedTicketsHolding :=
                 if decide (t_count sold = 0)
                 then delete existingTicketIndex shared
                 else shared in
               walletUpdateError <-
                 wallets_update me
                   (fun _ =>
                      mkWallet (gor_balance (walletData c) + 1) updatedTicketsHolding) ;;
               check walletUpdateError ;;;
               r <- profiles_single targetAddress ;;
               targetUser <- unwrap r ;;
               profileUpdateError <-
                 profiles_update targetAddress
                   (set_tickets_earned (Z.max 0 (tickets_earned targetUser - 1))) ;;
               check profileUpdateError ;;;
               showMessage (Plain "Ticket sold successfully! 1 GOR received.") SevSuccess
         end)
        (fun e => showMessage (Failure "Failed to sell ticket: " e) SevError)
  | _, _, _ => connectFirst
  end.

(** [handleTip], lines 1072-1156. *)
Definition handleTip (targetAddress : address) (amount : Z) : M unit :=
  c <- gets client ;;
  match currentWalletAddress c, currentUserProfile c, connected c with
  | Some me, Some prof, true =>
      if decide (me = targetAddress) then
        showMessage (Plain "You cannot tip yourself.") SevError
      else if decide (gor_balance (walletData c) < amount) then
        showMessage
          (Plain "Insufficient GOR balance to tip. Please fund your wallet.") SevError
      else if decide (amount <= 0) then
        showMessage (Plain "Tip amount must be positive.") SevError
      else
        try_catch
          (showMessage
             (Plain ("Initiating tip of " +:+ pretty amount +:+ " GOR to "
                       +:+ String.substring 0 7 targetAddress +:+ "..."))
             SevInfo ;;;
           transfer me targetAddress amount ;;;
           showMessage (Plain "Tip transaction confirmed on-chain!") SevSuccess ;;;
           senderUpdateError <-
             wallets_update me (set_gor_balance (gor_balance (walletData c) - amount)) ;;
           check senderUpdateError ;;;
           r <- wallets_single targetAddress ;;
           receiverCurrentBalance <-
             match r with
             | inr receiverWallet => ret (gor_balance receiverWallet)
             | inl PGRST116 => ret 0
             | inl receiverFetchError => throw receiverFetchError
             end ;;
           receiverUpdateError <-
             wallets_upsert targetAddress (receiverCurrentBalance + amount) ;;
           check receiverUpdateError ;;;
           showMessage
             (Plain ("Tipped " +:+ pretty amount
                       +:+ " GOR to user successfully and Supabase updated!"))
             SevSuccess ;;;
           notifications_insert
             (mkNotification targetAddress "tip"
                (senderName prof +:+ " tipped you " +:+ pretty amount +:+ " GOR!")
                None me false) ;;;
           ret tt)
          (fun e => showMessage (Failure "Failed to tip: " e) SevError)
  | _, _, _ => connectFirst
  end.

(** ** Vocabulary of the properties *)

(** The toast a handler shows last on its successful path. *)
Definition tipped (amount : Z) (st st' : State) : Prop :=
  (Plain ("Tipped " +:+ pretty amount
            +:+ " GOR to user successfully and Supabase updated!"), SevSuccess)
    ∈ shown st st'.

Definition bought (st st' : State) : Prop :=
  (Plain "Ticket purchase successful and Supabase updated!", SevSuccess)
    ∈ shown st st'.

Definition sold (st st' : State) : Prop :=
  (Plain "Ticket sold successfully! 1 GOR received.", SevSuccess) ∈ shown st st'.

(** The mirrored balance of an address, when it has a wallet record. *)
Definition stored_balance (m : Mirror) (a : address) : option Z :=
  gor_balance <$> wallets m !! a.

(** The sum of the mirrored balances over all wallet records. *)
Definition sum_balances (t : gmap address Wallet) : Z :=
  map_fold (fun _ w acc => gor_balance w + acc) 0 t.

Definition total_balance (m : Mirror) : Z := sum_balances (wallets m).

(** The row [wallets_upsert] leaves under its key. *)
Definition upsert_row (balance : Z) (old : option Wallet) : Wallet :=
  match old with
  | Some w => mkWallet balance (tickets_holding w)
  | None => mkWallet balance default_tickets_holding
  end.

(** The holding list [handleBuyTicket] writes, from the cached list and the
    username it fetched for a new entry. *)
Definition holding_after_buy (target : address) (fetched : string)
    (holding : list Ticket) : list Ticket :=
  match findIndex target holding with
  | Some (i, t) => <[i := set_count (t_count t + 1) t]> holding
  | None => holding ++ [mkTicket target 1 fetched]
  end.

(** The holding list [handleSellTicket] writes, from the cached list. *)
Definition holding_after_sell (target : address) (holding : list Ticket) : list Ticket :=
  match findIndex target holding with
  | Some (i, t) =>
      let sold := set_count (t_count t - 1) t in
      let shared := <[i := sold]> holding in
      if decide (t_count sold = 0) then delete i shared else shared
  | None => holding
  end.

(** The number of distinct addresses in an array column. *)
Definition cardinality (l : list address) : Z :=
  Z.of_nat (size (list_to_set (C := gset string) l)).

(** The invariant of the denormalised counters of a post. *)
Definition counters_match (p : Post) : Prop :=
  likes_count p = cardinality (likes p) ∧ reposts_count p = cardinality (reposts p).

(** The operations that can emit a notification. *)
Inductive Action :=
  | Comment_on (postId : post_id) (commentContent : string)
  | Repost_of (postId : post_id)
  | Follow_toggle (targetAddress : address) (isFollowing : bool)
  | Tip_to (targetAddress : address) (amount : Z)
  | Buy_ticket (targetAddress : address).

Definition perform (a : Action) : M unit :=
  match a with
  | Comment_on postId commentContent => handleComment postId commentContent
  | Repost_of postId => handleRepost postId
  | Follow_toggle targetAddress isFollowing => handleFollowToggle targetAddress isFollowing
  | Tip_to targetAddress amount => handleTip targetAddress amount
  | Buy_ticket targetAddress => handleBuyTicket targetAddress
  end.

(** The notifications inserted between two states are self-free when none
    of them is addressed to its own sender. *)
Definition fresh_notification_ok (me : option address) (n : Notification) : Prop :=
  recipient_address n ≠ sender_address n ∧ me = Some (sender_address n).

(** ** Concrete states used by the examples *)

Definition alice : Profile := mkProfile "alice" "gm" [] [] 0 [].
Definition bob : Profile := mkProfile "bob" "gm" [] [] 0 [].

Definition hello : Post := mkPost "A" "alice" "hello" None [] [] 0 0 0.

Definition two_profiles : gmap address Profile := <["A" := alice]> (<["B" := bob]> ∅).

(** [A] holds 5 units, [B] has no wallet record yet; [A]'s client is loaded. *)
Definition fresh_mirror : Mirror :=
  mkMirror two_profiles (<["A" := mkWallet 5 []]> ∅) (<[1%nat := hello]> ∅) [] [].

Definition client_of (a : address) (p : Profile) (w : Wallet) : Client :=
  mkClient (Some a) true (Some p) w.

Definition state_of (m : Mirror) (c : Client) : State := mkState m c [] [] [] [].

Definition fresh_state : State := state_of fresh_mirror (client_of "A" alice (mkWallet 5 [])).

(** The store says 10 for [A] (someone tipped [A] 5 in the meantime) while
    [A]'s client still holds the 5 it fetched earlier. *)
Definition stale_mirror : Mirror :=
  mkMirror two_profiles (<["A" := mkWallet 10 []]> ∅) (<[1%nat := hello]> ∅) [] [].

Definition stale_state : State := state_of stale_mirror (client_of "A" alice (mkWallet 5 [])).

(** [A] holds one ticket of [B], in the store and in the cache alike. *)
Definition holder_wallet : Wallet := mkWallet 5 [mkTicket "B" 1 "bob"].

Definition holder_mirror : Mirror :=
  mkMirror (<["A" := alice]> (<["B" := set_tickets_earned 1 bob]> ∅))
           (<["A" := holder_wallet]> ∅) ∅ [] [].

Definition holder_state : State := state_of holder_mirror (client_of "A" alice holder_wallet).




(** The stored wallet of [A] differs from the one [A]'s client observed, in
    balance and in holdings. *)
Definition diverged_mirror : Mirror :=
  mkMirror (<["A" := alice]> (<["B" := set_tickets_earned 3 bob]> ∅))
           (<["A" := mkWallet 10 [mkTicket "B" 3 "bob"]]> ∅) ∅ [] [].

Definition diverged_state : State :=
  state_of diverged_mirror (client_of "A" alice holder_wallet).

(** [B] looks at [A]'s post; nobody has liked it. *)
Definition reader_state : State := state_of fresh_mirror (client_of "B" bob (mkWallet 0 [])).

(** [B] has already reposted [A]'s post. *)
Definition reposted_mirror : Mirror :=
  mkMirror two_profiles ∅ (<[1%nat := set_reposts ["B"] 1 hello]> ∅) [] [].

Definition reposted_state : State :=
  state_of reposted_mirror (client_of "B" bob (mkWallet 0 [])).

(** [A] has already blocked [B]. *)
Definition blocking_mirror : Mirror :=
  mkMirror (<["A" := set_blocked_users ["B"] alice]> (<["B" := bob]> ∅))
           (<["A" := mkWallet 5 []]> ∅) ∅ [] [].

Definition blocking_state : State :=
  state_of blocking_mirror
    (client_of "A" (set_blocked_users ["B"] alice) (mkWallet 5 [])).

(** The ledger rejects the next transfer. *)
Definition rejecting_state : State := with_chain [SendThrows] fresh_state.

(** ** The rest of the component: posting, profile edits, notifications read,
    the trending list

    Text typed into the interface is a string of code units below 256. *)

(** White space and line terminators of JavaScript among these code units:
    TAB, LF, VT, FF, CR, SP and NBSP. *)
Definition is_whitespace (c : ascii) : bool :=
  match N_of_ascii c with
  | 9 | 10 | 11 | 12 | 13 | 32 | 160 => true
  | _ => false
  end%N.

Fixpoint trimStart (s : string) : string :=
  match s with
  | EmptyString => EmptyString
  | String c s' => if is_whitespace c then trimStart s' else s
  end.

(** [s.trim()] *)
Definition trim (s : string) : string :=
  String.rev (trimStart (String.rev (trimStart s))).

(** [!s.trim()] *)
Definition blank (s : string) : bool :=
  match trim s with
  | EmptyString => true
  | _ => false
  end.

(** A file picked in the composer, with what the blob store answers to
    [getPublicUrl] for the path it is stored under ([None]: no [publicUrl]). *)
Record File := mkFile {
  file_name : string;
  file_publicUrl : option string
}.

(** The part of the React state [handlePost] reads and resets. *)
Record Composer := mkComposer {
  newPostContent : string;
  newPostImage : option File
}.

(** [uploadImage], lines 573-602.  The path it builds from [Date.now()] is
    seen by the blob store only. *)
Definition uploadImage (file : option File) : M (option string) :=
  match file with
  | None => ret None
  | Some f =>
      error <- next_fault ;;
      if (error : bool) then
        showMessage (Failure "Image upload failed: " NetworkError) SevError ;;;
        ret None
      else
        match file_publicUrl f with
        | Some (String c url) => ret (Some (String c url))
        | _ =>
            showMessage (Plain "Failed to get public URL for image.") SevError ;;;
            ret None
        end
  end.

(** [from('posts').insert(row)]; the id is generated: a key not in use. *)
Definition posts_insert (row : Post) : M (option Error) :=
  f <- next_fault ;;
  if (f : bool) then ret (Some NetworkError)
  else
    modify (fun st =>
      let m := mirror st in
      with_mirror (set_posts (<[fresh (dom (posts m)) := row]> (posts m)) m) st) ;;;
    ret None.

(** [try { body } catch (error) { handler error }] around a body that
    yields a value. *)
Definition try_catch_value {A} (body : M A) (handler : Error -> M A) : M A :=
  fun st =>
    match body st with
    | (Ret a, st') => (Ret a, st')
    | (Thrown e, st') => handler e st'
    end.

(** [handlePost], lines 605-649; returns the composer state it leaves. *)
Definition handlePost (composer : Composer) : M Composer :=
  let noImage :=
    match newPostImage composer with
    | Some _ => false
    | None => true
    end in
  if blank (newPostContent composer) && noImage then
    showMessage (Plain "Post content or image cannot be empty.") SevError ;;;
    ret composer
  else
    c <- gets client ;;
    match currentWalletAddress c, currentUserProfile c, connected c with
    | Some me, Some prof, true =>
        imageUrl <-
          (if noImage then ret None
           else
             showMessage (Plain "Uploading image...") SevInfo ;;;
             uploadImage (newPostImage composer)) ;;
        match noImage, imageUrl with
        | false, None => ret composer
        | _, _ =>
            try_catch_value
              (error <-
                 posts_insert
                   (mkPost me (or_else (username prof) (defaultUsername me))
                      (newPostContent composer) imageUrl [] [] 0 0 0) ;;
               match error with
               | Some _ =>
                   showMessage (Plain "Failed to create post.") SevError ;;;
                   ret composer
               | None =>
                   showMessage (Plain "Post created successfully!") SevSuccess ;;;
                   ret (mkComposer EmptyString None)
               end)
              (fun _ =>
                 showMessage (Plain "Failed to create post.") SevError ;;;
                 ret composer)
        end
    | _, _, _ => connectFirst ;;; ret composer
    end.

Definition set_username_bio (u b : string) (p : Profile) : Profile :=
  mkProfile u b (followers p) (following p) (tickets_earned p) (blocked_users p).

Definition set_p_username (u : string) (p : Post) : Post :=
  mkPost (author_address p) u (content p) (image_url p)
         (likes p) (reposts p) (likes_count p) (reposts_count p) (comments_count p).

Definition set_c_username (u : string) (c : Comment) : Comment :=
  mkComment (c_post_id c) (c_author_address c) u (c_content c).

(** [from('posts').update({username}).eq('author_address', a)]: every row of
    the author. *)
Definition posts_update_by_author (a : address) (u : string) : M (option Error) :=
  f <- next_fault ;;
  if (f : bool) then ret (Some NetworkError)
  else
    modify (fun st =>
      let m := mirror st in
      with_mirror
        (set_posts
           ((fun p => if decide (author_address p = a) then set_p_username u p else p)
              <$> posts m) m) st) ;;;
    ret None.

(** [from('comments').update({username}).eq('author_address', a)] *)
Definition comments_update_by_author (a : address) (u : string) : M (option Error) :=
  f <- next_fault ;;
  if (f : bool) then ret (Some NetworkError)
  else
    modify (fun st =>
      let m := mirror st in
      with_mirror
        (set_comments
           ((fun c => if decide (c_author_address c = a) then set_c_username u c else c)
              <$> comments m) m) st) ;;;
    ret None.

(** [handleSaveProfile], lines 1173-1217, on the [profileEditData] it closes
    over.  An error of the two propagation updates is only logged. *)
Definition handleSaveProfile (edit_username edit_bio : string) : M unit :=
  c <- gets client ;;
  match currentWalletAddress c with
  | None => connectFirst
  | Some me =>
      if blank edit_username then
        showMessage (Plain "Username cannot be empty.") SevError
      else
        try_catch
          (profileUpdateError <-
             profiles_update me (set_username_bio edit_username edit_bio) ;;
           check profileUpdateError ;;;
           posts_update_by_author me edit_username ;;;
           comments_update_by_author me edit_username ;;;
           showMessage (Plain "Profile updated successfully!") SevSuccess)
          (fun e => showMessage (Failure "Failed to update profile: " e) SevError)
  end.

Definition set_read (b : bool) (n : Notification) : Notification :=
  mkNotification (recipient_address n) (n_type n) (message n) (n_post_id n)
                 (sender_address n) b.

(** [from('notifications').update({read: true}).eq('id', id)
    .eq('recipient_address', a)].  The generated id of a notification is its
    position in the table. *)
Definition notifications_mark_read (id : nat) (a : address) : M (option Error) :=
  f <- next_fault ;;
  if (f : bool) then ret (Some NetworkError)
  else
    modify (fun st =>
      let m := mirror st in
      with_mirror
        (set_notifications
           (alter (fun n => if decide (recipient_address n = a)
                            then set_read true n else n)
                  id (notifications m)) m) st) ;;;
    ret None.

(** [handleMarkNotificationRead], lines 1158-1171; the catch only logs. *)
Definition handleMarkNotificationRead (notificationId : nat) : M unit :=
  c <- gets client ;;
  match currentWalletAddress c with
  | None => ret tt
  | Some me =>
      try_catch
        (error <- notifications_mark_read notificationId me ;;
         check error)
        (fun _ => ret tt)
  end.

(** The rows [fetchNotifications] (lines 549-562) asks for: those addressed
    to [a], each with its id, newest first (the table is kept in the order
    the rows were created in). *)
Definition notifications_of (a : address) (m : Mirror) : list (nat * Notification) :=
  reverse (filter (fun r => recipient_address r.2 = a) (imap pair (notifications m))).

(** [fetchNotifications]; returns the list it passes to [setNotifications].
    The effect that defines it returns early without a connected address. *)
Definition fetchNotifications : M (option (list (nat * Notification))) :=
  c <- gets client ;;
  match currentWalletAddress c with
  | None => ret None
  | Some me =>
      f <- next_fault ;;
      if (f : bool) then
        showMessage (Plain "Failed to load notifications.") SevError ;;;
        ret None
      else
        m <- gets mirror ;;
        ret (Some (notifications_of me m))
  end.

(** [notifications.filter(n => !n.read).length], the badge of the sidebar. *)
Definition unreadCount (l : list (nat * Notification)) : nat :=
  length (filter (fun r => read r.2 = false) l).

(** [handleCommentSubmit] of the [Post] component, lines 150-157. *)
Definition handleCommentSubmit (postId : post_id) (newComment : string) : M unit :=
  if blank newComment then ret tt else handleComment postId newComment.

(** [(user.tickets_earned || 0) + (user.followers?.length || 0)] *)
Definition trendingScore (u : Profile) : Z :=
  tickets_earned u + Z.of_nat (length (followers u)).

(** [sort((a, b) => b.trendingScore - a.trendingScore)]: the stable sort by
    decreasing score, as an insertion sort from the right. *)
Fixpoint insert_by_score (x : address * Profile) (l : list (address * Profile))
    : list (address * Profile) :=
  match l with
  | [] => [x]
  | y :: l' =>
      if decide (trendingScore y.2 <= trendingScore x.2) then x :: l
      else y :: insert_by_score x l'
  end.

Definition sort_by_score (l : list (address * Profile)) : list (address * Profile) :=
  foldr insert_by_score [] l.

(** [getTrendingUsers], lines 1224-1235, on the rows of [allUsers] in the
    order [Object.values] gives them.  The [trendingScore] field that [map]
    adds to each row is [trendingScore] of the row. *)
Definition getTrendingUsers (allUsers : list (address * Profile))
    (currentWalletAddress : option address) : list (address * Profile) :=
  let otherUsers := filter (fun u => Some u.1 ≠ currentWalletAddress) allUsers in
  take 5 (sort_by_score otherUsers).

(** Every handler and fetch function, as one operation of a client. *)
Inductive Operation :=
  | Op_post (composer : Composer)
  | Op_like (postId : post_id) (isCurrentlyLiked : bool)
  | Op_comment (postId : post_id) (commentContent : string)
  | Op_repost (postId : post_id)
  | Op_follow (targetAddress : address) (isFollowing : bool)
  | Op_block (targetAddress : address)
  | Op_buy (targetAddress : address)
  | Op_sell (targetAddress : address)
  | Op_tip (targetAddress : address) (amount : Z)
  | Op_mark_read (notificationId : nat)
  | Op_save_profile (edit_username edit_bio : string)
  | Op_fetch_wallet
  | Op_fetch_profile.

Definition execute (o : Operation) : M unit :=
  match o with
  | Op_post composer => handlePost composer ;;; ret tt
  | Op_like postId isCurrentlyLiked => handleLike postId isCurrentlyLiked
  | Op_comment postId commentContent => handleComment postId commentContent
  | Op_repost postId => handleRepost postId
  | Op_follow targetAddress isFollowing => handleFollowToggle targetAddress isFollowing
  | Op_block targetAddress => handleBlock targetAddress
  | Op_buy targetAddress => handleBuyTicket targetAddress
  | Op_sell targetAddress => handleSellTicket targetAddress
  | Op_tip targetAddress amount => handleTip targetAddress amount
  | Op_mark_read notificationId => handleMarkNotificationRead notificationId
  | Op_save_profile edit_username edit_bio => handleSaveProfile edit_username edit_bio
  | Op_fetch_wallet => fetchWalletData
  | Op_fetch_profile => fetchCurrentUserProfile
  end.

(** ** Vocabulary of the properties of the whole client *)

(** A transfer a client may hand to the ledger. *)
Definition transfer_ok (me : option address) (t : Transfer) : Prop :=
  me = Some (tr_source t) ∧ tr_destination t ≠ tr_source t ∧ 0 < tr_amount t.

(** What stays of a post, of a comment and of a notification. *)
Definition post_kept (p p' : Post) : Prop :=
  author_address p' = author_address p ∧ content p' = content p ∧
  image_url p' = image_url p.

Definition comment_kept (c c' : Comment) : Prop :=
  c_post_id c' = c_post_id c ∧ c_author_address c' = c_author_address c ∧
  c_content c' = c_content c.

Definition notification_kept (n n' : Notification) : Prop :=
  recipient_address n' = recipient_address n ∧ n_type n' = n_type n ∧
  message n' = message n ∧ n_post_id n' = n_post_id n ∧
  sender_address n' = sender_address n ∧ (read n = true -> read n' = true).

(** The toasts of success of the social handlers. *)
Definition said (msg : string) (st st' : State) : Prop :=
  (Plain msg, SevSuccess) ∈ shown st st'.

Definition liked := said "Post liked!".
Definition unliked := said "Post unliked!".
Definition commented := said "Comment added!".
Definition followed := said "Followed user!".
Definition unfollowed := said "Unfollowed user.".
Definition posted := said "Post created successfully!".
Definition profile_saved := said "Profile updated successfully!".

(** The order of the trending list: no later user has a higher score. *)
Definition by_score (u v : address * Profile) : Prop :=
  trendingScore v.2 <= trendingScore u.2.

(** ** More concrete states *)

Definition carol : Profile := mkProfile "carol" "gm" ["A"; "B"] [] 1 [].

(** [B] has commented on the post of [A]; one notification waits for each. *)
Definition busy_mirror : Mirror :=
  mkMirror (<["A" := alice]> (<["B" := bob]> (<["C" := carol]> ∅)))
           (<["A" := mkWallet 5 []]> ∅)
           (<[1%nat := set_comments_count 1 hello]> ∅)
           [mkComment 1 "B" "bob" "gm"]
           [mkNotification "A" "comment" "bob commented on your post" (Some 1%nat)
              "B" false;
            mkNotification "B" "follow" "alice started following you!" None "A" false].

Definition busy_state : State := state_of busy_mirror (client_of "A" alice (mkWallet 5 [])).

(** The first mirror-store call of [busy_state] reports an error. *)
Definition failing_state : State := with_faults [true] busy_state.

(** The debit of a tip goes through, the read of the recipient fails. *)
Definition half_failing_state : State := with_faults [false; true; false] fresh_state.

(** A new address with nothing in the store. *)
Definition newcomer_state : State :=
  state_of fresh_mirror (mkClient (Some "N") true None (mkWallet 0 [])).

(** Seven users, as [allUsers] holds them. *)
Definition seven_users : list (address * Profile) :=
  [("A", alice); ("B", set_tickets_earned 2 bob); ("C", carol);
   ("D", set_tickets_earned 7 bob); ("E", bob); ("F", set_tickets_earned 3 carol);
   ("G", set_tickets_earned 2 alice)].

(** [A] follows [B], in the store and in the profile [A]'s client holds. *)
Definition following_mirror : Mirror :=
  mkMirror (<["A" := set_following ["B"] alice]> (<["B" := set_followers ["A"] bob]> ∅))
           ∅ ∅ [] [].

Definition following_state : State :=
  state_of following_mirror (client_of "A" (set_following ["B"] alice) (mkWallet 0 [])).

(** ** Proof automation: symbolic execution of a handler *)

Ltac unfold_handlers :=
  unfold run, perform, handleTip, handleBuyTicket, handleSellTicket, handleLike,
    handleComment, handleRepost, handleFollowToggle, handleBlock,
    fetchWalletData, fetchCurrentUserProfile, connectFirst,
    transfer, sendTransaction, next_outcome,
    posts_single, posts_update, profiles_single, profiles_update,
    profiles_insert, wallets_single, wallets_update, wallets_insert,
    wallets_upsert, comments_insert, notifications_insert,
    single, update, insert_row, next_fault,
    setWalletData, setCurrentUserProfile, check, unwrap,
    showMessage, try_catch, bind, ret, throw, gets, modify in *.

(** Case split on the next entry of a script of the outside world. *)
Ltac split_script :=
  match goal with
  | |- context [match ?l with [] => _ | _ :: _ => _ end] =>
      is_var l; destruct l as [|[] ?]; simpl
  end.

(** Open the state and the client, so that projections compute. *)
Ltac open_state st :=
  let m := fresh "m" in
  let me := fresh "me" in
  let conn := fresh "conn" in
  let prof := fresh "prof" in
  let wd := fresh "wd" in
  let sub := fresh "sub" in
  let ts := fresh "ts" in
  let fs := fresh "fs" in
  let ch := fresh "ch" in
  destruct st as [m [me conn prof wd] sub ts fs ch]; simpl in *.

(** Reduce [shown] on the toasts a run has appended. *)
Ltac reduce_shown :=
  unfold shown; simpl; repeat rewrite <- app_assoc; rewrite ?drop_app_length; simpl.

(** Decide membership of a toast in a list of toasts that is now explicit. *)
Ltac toast_cases H :=
  apply list_elem_of_In in H; simpl in H;
  cbv beta iota delta [String.append] in H.

(** Case split on what the handler finds in a table or in the cache. *)
Ltac split_lookup :=
  match goal with
  | |- context [match ?t !! ?k with Some _ => _ | None => _ end] =>
      destruct (t !! k) eqn:?; simpl
  end.

Ltac split_find :=
  match goal with
  | |- context [match findIndex ?a ?l with Some _ => _ | None => _ end] =>
      destruct (findIndex a l) as [[? ?]|] eqn:?; simpl
  end.

Ltac split_bool :=
  match goal with
  | |- context [if ?b then _ else _] => is_var b; destruct b; simpl
  | |- context [match ?b with true => _ | false => _ end] =>
      is_var b; destruct b; simpl
  end.

(** Run a handler along every path. *)
Ltac exec :=
  repeat (first [split_bool | split_script | split_find | split_lookup
                | case_decide; simpl]).

Ltac no_new_notification :=
  exists []; split; [by rewrite app_nil_r | constructor].

Ltac one_new_notification :=
  eexists [_]; split; [reflexivity | repeat constructor; simpl; congruence].

(** A path on which the toast of success was never shown. *)
Ltac absurd_toast :=
  reduce_shown; let H := fresh "Hin" in
  intros H; toast_cases H; exfalso; intuition congruence.

(** Unfold the handlers of the rest of the component as well. *)
Ltac unfold_all :=
  unfold execute, handlePost, handleSaveProfile, handleMarkNotificationRead,
    fetchNotifications, handleCommentSubmit, uploadImage, posts_insert,
    posts_update_by_author, comments_update_by_author, notifications_mark_read,
    try_catch_value in *;
  unfold_handlers.

Ltac split_more :=
  match goal with
  | |- context [blank ?s] => destruct (blank s) eqn:?; simpl
  | |- context [match file_publicUrl ?f with _ => _ end] =>
      destruct (file_publicUrl f) as [[|? ?]|] eqn:?; simpl
  | |- context [match ?o with Some _ => _ | None => _ end] =>
      is_var o; destruct o; simpl
  end.

Ltac exec_all :=
  repeat (first [split_more | split_bool | split_script | split_find
                | split_lookup | case_decide; simpl]).

Ltac unfold_said :=
  unfold liked, unliked, commented, followed, unfollowed, posted, profile_saved,
    said in *.

(** A toast of a run on a concrete state. *)
Ltac toast_shown :=
  unfold_said; unfold tipped, bought, sold;
  apply list_elem_of_In; vm_compute; auto.

(** A fact about every row of a concrete table. *)
Ltac each_row H :=
  unfold fresh_mirror, holder_mirror, busy_mirror, two_profiles in H;
  cbn [profiles wallets posts] in H;
  repeat (apply lookup_insert_Some in H as [[_ <-]|[_ H]];
          [first [by split | simpl; lia]|]);
  by apply lookup_empty_Some in H.

(** ** The ledger and validation gates *)

(** C2.  When the ledger does not confirm the transfer of a tip or of a
    ticket purchase (address derivation, submission or confirmation throws),
    the handler performs no mirror-store write: profiles, wallets with their
    holdings, posts, comments and notifications are as before the attempt. *)
Theorem ledger_failure_writes_nothing st target amount o os :
  chain st = o :: os ->
  o ≠ Confirmed ->
  mirror (run (handleTip target amount) st) = mirror st ∧
  mirror (run (handleBuyTicket target) st) = mirror st.
Proof.
  open_state st. intros -> Ho. unfold_handlers. simpl.
  destruct me as [s|], prof as [p|], conn; simpl; try done.
  split.
  - repeat (case_decide; simpl; try done).
    destruct o; simpl; done.
  - repeat (case_decide; simpl; try done).
    destruct o; simpl; done.
Qed.

Lemma ledger_failure_writes_nothing_witness :
  mirror (run (handleTip "B" 3) rejecting_state) = mirror rejecting_state ∧
  mirror (run (handleBuyTicket "B") rejecting_state) = mirror rejecting_state.
Proof.
  apply (ledger_failure_writes_nothing rejecting_state "B" 3 SendThrows []).
  - reflexivity.
  - discriminate.
Defined.




(** ** Notification fanout *)

(** C8.  For each operation that can emit a notification (comment, repost,
    follow, tip, ticket purchase), in every state and whatever the outside
    world answers, the notifications table after the operation is the table
    before it followed by records sent by the acting address to a different
    recipient: no record is inserted whose recipient is its own sender. *)
Theorem no_self_notification a st :
  ∃ added,
    notifications (mirror (run (perform a) st)) = notifications (mirror st) ++ added ∧
    Forall (fresh_notification_ok (currentWalletAddress (client st))) added.
Proof.
  open_state st. destruct a; unfold_handlers; simpl;
    destruct me as [s|], prof as [p|]; simpl; try no_new_notification.
  all: exec.
  all: first [no_new_notification | one_new_notification].
Qed.

(** ** Repost and block: the membership guards *)

Lemma handleRepost_member st me postId p :
  currentWalletAddress (client st) = Some me ->
  posts (mirror st) !! postId = Some p ->
  me ∈ reposts p ->
  let st' := run (handleRepost postId) st in
  mirror st' = mirror st ∧ ∃ msg, shown st st' = [(Plain msg, SevError)].
Proof.
  open_state st. intros -> Hp Hin. unfold_handlers. simpl.
  destruct prof as [prof|]; simpl.
  2: { split; [done|]. eexists. reduce_shown. reflexivity. }
  split_script; rewrite ?Hp; simpl; try case_decide; simpl; try done;
    (split; [done|]; eexists; reduce_shown; reflexivity).
Qed.

(** A repost that changes the store leaves the address in the reposts of
    the stored post. *)
Lemma handleRepost_effect st postId :
  let st' := run (handleRepost postId) st in
  client st' = client st ∧
  (mirror st' = mirror st ∨
   ∃ me p, currentWalletAddress (client st) = Some me ∧
           posts (mirror st') !! postId = Some p ∧ me ∈ reposts p).
Proof.
  open_state st. unfold_handlers. simpl.
  destruct me as [s|], prof as [prof|]; simpl; try (split; [done|by left]).
  exec; try (split; [done|by left]).
  all: split; [done|right]; eexists _, _; (split; [done|]).
  all: rewrite lookup_alter_eq;
    match goal with H : _ !! _ = Some _ |- _ => rewrite H end; simpl.
  all: split; [done|]; apply elem_of_app; right; by apply list_elem_of_singleton.
Qed.

(** C9.  A repost attempt by an address that is already in the reposts of
    the stored post is rejected: the whole store (the post with its reposts,
    its counter and every other field, and the notifications) is as before,
    and what is shown is one error toast.  Hence of two consecutive attempts
    on a post by one client at most one changes the store. *)
Theorem repost_again_is_rejected st postId :
  (∀ me p,
     currentWalletAddress (client st) = Some me ->
     posts (mirror st) !! postId = Some p ->
     me ∈ reposts p ->
     let st' := run (handleRepost postId) st in
     mirror st' = mirror st ∧ ∃ msg, shown st st' = [(Plain msg, SevError)]) ∧
  (let st1 := run (handleRepost postId) st in
   let st2 := run (handleRepost postId) st1 in
   mirror st2 = mirror st1 ∨ mirror st1 = mirror st).
Proof.
  split.
  - intros me p. apply handleRepost_member.
  - intros st1 st2.
    destruct (handleRepost_effect st postId) as [Hc [Hm|(me & p & Hme & Hp & Hin)]].
    + by right.
    + left. fold st1 in Hc, Hp. rewrite <- Hc in Hme.
      apply (handleRepost_member st1 me postId p Hme Hp Hin).
Qed.

Lemma repost_again_is_rejected_witness :
  let st' := run (handleRepost 1) reposted_state in
  mirror st' = mirror reposted_state ∧
  ∃ msg, shown reposted_state st' = [(Plain msg, SevError)].
Proof.
  apply (proj1 (repost_again_is_rejected reposted_state 1%nat)
           "B" (set_reposts ["B"] 1 hello)).
  - reflexivity.
  - reflexivity.
  - apply list_elem_of_here.
Defined.

Lemma handleBlock_member st target prof :
  currentUserProfile (client st) = Some prof ->
  target ∈ blocked_users prof ->
  let st' := run (handleBlock target) st in
  mirror st' = mirror st ∧ client st' = client st ∧ faults st' = faults st.
Proof.
  open_state st. intros -> Hin. unfold_handlers. simpl.
  destruct me as [s|]; simpl; try done.
  repeat (case_decide; simpl); done.
Qed.

(** C10.  A block request for a target that is already in the
    [blocked_users] of the acting client's profile makes no mirror-store
    call and leaves store and client as they are.  A block request repeated
    by the same client changes neither store nor client, whatever the first
    one did.  A block request on duplicate-free lists leaves the stored list
    and the client's list duplicate-free. *)
Theorem block_is_idempotent st target :
  (∀ prof,
     currentUserProfile (client st) = Some prof ->
     target ∈ blocked_users prof ->
     let st' := run (handleBlock target) st in
     mirror st' = mirror st ∧ client st' = client st ∧ faults st' = faults st) ∧
  (let st1 := run (handleBlock target) st in
   let st2 := run (handleBlock target) st1 in
   mirror st2 = mirror st1 ∧ client st2 = client st1) ∧
  (∀ me prof,
     currentWalletAddress (client st) = Some me ->
     currentUserProfile (client st) = Some prof ->
     NoDup (blocked_users prof) ->
     (∀ p, profiles (mirror st) !! me = Some p -> NoDup (blocked_users p)) ->
     let st' := run (handleBlock target) st in
     (∀ p', profiles (mirror st') !! me = Some p' -> NoDup (blocked_users p')) ∧
     (∀ prof', currentUserProfile (client st') = Some prof' ->
               NoDup (blocked_users prof'))).
Proof.
  split; [|split].
  - intros prof. apply handleBlock_member.
  - open_state st. unfold_handlers. simpl.
    destruct me as [s|], prof as [prof|]; simpl; try done.
    exec; try done.
    all: exfalso; match goal with H : _ ∉ _ ++ [_] |- _ => apply H end.
    all: apply elem_of_app; right; by apply list_elem_of_singleton.
  - open_state st. intros s p [= ->] [= ->] Hnd Hst. unfold_handlers. simpl.
    assert (target ∉ blocked_users p -> NoDup (blocked_users p ++ [target])) as Hpush.
    { intros Hnot. apply NoDup_app. split; [done|]. split; [|apply NoDup_singleton].
      intros x Hx Hx'. apply list_elem_of_singleton in Hx'. by subst. }
    exec.
    all: split; [intros p' Hp'|intros prof' [= <-]; simpl; auto].
    all: try (by eapply Hst).
    all: rewrite lookup_alter_eq in Hp'.
    all: destruct (profiles m !! s) as [q|]; simplify_eq/=; auto.
Qed.

Lemma block_is_idempotent_witness :
  let st' := run (handleBlock "B") blocking_state in
  (mirror st' = mirror blocking_state ∧ client st' = client blocking_state ∧
   faults st' = faults blocking_state) ∧
  (∀ p', profiles (mirror st') !! "A" = Some p' -> NoDup (blocked_users p')) ∧
  (∀ prof', currentUserProfile (client st') = Some prof' ->
            NoDup (blocked_users prof')).
Proof.
  destruct (block_is_idempotent blocking_state "B") as (Hmember & _ & Hnodup).
  split.
  - apply (Hmember (set_blocked_users ["B"] alice)).
    + reflexivity.
    + apply list_elem_of_here.
  - apply (Hnodup "A" (set_blocked_users ["B"] alice)).
    + reflexivity.
    + reflexivity.
    + apply NoDup_singleton.
    + intros p [= <-]. apply NoDup_singleton.
Defined.

(** ** Settlement: what a successful run has done

    The three lemmas read a run backwards: the toast of success is shown only
    on the path on which every guard passed, the ledger confirmed and no
    mirror-store call before the toast reported an error. *)

Lemma handleTip_success st s r a :
  currentWalletAddress (client st) = Some s ->
  tipped a st (run (handleTip r a) st) ->
  let st' := run (handleTip r a) st in
  let c := gor_balance (walletData (client st)) in
  s ≠ r ∧ 0 < a ∧ a <= c ∧
  wallets (mirror st') =
    <[r := upsert_row (default 0 (stored_balance (mirror st) r) + a)
             (wallets (mirror st) !! r)]>
      (alter (set_gor_balance (c - a)) s (wallets (mirror st))) ∧
  profiles (mirror st') = profiles (mirror st) ∧
  posts (mirror st') = posts (mirror st) ∧
  submitted st' = submitted st ++ [mkTransfer s r a].
Proof.
  open_state st. intros ->. unfold tipped, stored_balance. unfold_handlers. simpl.
  destruct prof as [prof|], conn; simpl; try absurd_toast.
  repeat (case_decide; simpl); try absurd_toast.
  destruct ch as [|[] ch]; simpl.
  all: repeat (match goal with
       | |- context [match ?l with [] => _ | _ :: _ => _ end] =>
           is_var l; destruct l as [|[] ?]; simpl
       | |- context [alter _ ?s _ !! ?r] => rewrite (lookup_alter_ne _ _ s r) by done
       | |- context [match (wallets ?m !! ?r) with _ => _ end] =>
           destruct (wallets m !! r) eqn:?; simpl
       end).
  all: try absurd_toast.
  all: intros _; simplify_eq/=.
  all: repeat split; try done; try lia.
Qed.

Lemma handleBuyTicket_success st s T :
  currentWalletAddress (client st) = Some s ->
  bought st (run (handleBuyTicket T) st) ->
  let st' := run (handleBuyTicket T) st in
  let wd := walletData (client st) in
  s ≠ T ∧ 1 <= gor_balance wd ∧
  ∃ pT, profiles (mirror st) !! T = Some pT ∧
    wallets (mirror st') =
      alter (fun _ => mkWallet (gor_balance wd - 1)
                        (holding_after_buy T (username pT) (tickets_holding wd)))
            s (wallets (mirror st)) ∧
    profiles (mirror st') =
      alter (set_tickets_earned (tickets_earned pT + 1)) T (profiles (mirror st)) ∧
    client st' = client st ∧
    submitted st' = submitted st ++ [mkTransfer s T 1].
Proof.
  open_state st. intros ->. unfold bought, holding_after_buy. unfold_handlers. simpl.
  destruct prof as [prof|], conn; simpl; try absurd_toast.
  repeat (case_decide; simpl); try absurd_toast.
  destruct ch as [|[] ch]; simpl.
  all: exec.
  all: try absurd_toast.
  all: intros _; simplify_eq; split; [done|]; split; [lia|]; eexists; split; [done|].
  all: repeat split; try done.
Qed.

Lemma handleSellTicket_success st s T :
  currentWalletAddress (client st) = Some s ->
  sold st (run (handleSellTicket T) st) ->
  let st' := run (handleSellTicket T) st in
  let wd := walletData (client st) in
  ∃ i t pT,
    findIndex T (tickets_holding wd) = Some (i, t) ∧ t_count t ≠ 0 ∧
    profiles (mirror st) !! T = Some pT ∧
    wallets (mirror st') =
      alter (fun _ => mkWallet (gor_balance wd + 1)
                        (holding_after_sell T (tickets_holding wd)))
            s (wallets (mirror st)) ∧
    profiles (mirror st') =
      alter (set_tickets_earned (Z.max 0 (tickets_earned pT - 1))) T
            (profiles (mirror st)) ∧
    submitted st' = submitted st.
Proof.
  open_state st. intros ->. unfold sold, holding_after_sell. unfold_handlers. simpl.
  destruct prof as [prof|], conn; simpl; try absurd_toast.
  exec.
  all: try absurd_toast.
  all: intros _; simplify_eq; eexists _, _, _;
    split; [done|]; split; [done|]; split; [done|].
  all: simpl; repeat split; try done.
  all: repeat case_decide; try done.
Qed.

(** ** Sums of balances and holding lists *)

Lemma sum_balances_insert_None (t : gmap string Wallet) k w :
  t !! k = None -> sum_balances (<[k := w]> t) = gor_balance w + sum_balances t.
Proof.
  intros Hk. unfold sum_balances.
  rewrite map_fold_insert_L; [done| |done]. intros. lia.
Qed.

Lemma sum_balances_insert_Some (t : gmap string Wallet) k w old :
  t !! k = Some old ->
  sum_balances (<[k := w]> t) = sum_balances t - gor_balance old + gor_balance w.
Proof.
  intros Hk.
  rewrite <- (insert_delete_eq t k w).
  rewrite sum_balances_insert_None by apply lookup_delete_eq.
  unfold sum_balances at 2.
  rewrite (map_fold_delete_L _ _ k old t); [|intros; lia|done].
  fold (sum_balances (delete k t)). lia.
Qed.

Lemma alter_Some_insert {V} (t : gmap string V) k f old :
  t !! k = Some old -> alter f k t = <[k := f old]> t.
Proof.
  intros Hk. apply map_eq. intros j.
  rewrite lookup_alter, lookup_insert. case_decide; subst; [by rewrite Hk|done].
Qed.

Lemma findIndex_new_entry T u h :
  findIndex T h = None ->
  findIndex T (h ++ [mkTicket T 1 u]) = Some (length h, mkTicket T 1 u).
Proof.
  intros Hn. unfold findIndex in *. rewrite list_find_app_r by done.
  simpl. rewrite decide_True by done. done.
Qed.

Lemma findIndex_updated T h i t n :
  findIndex T h = Some (i, t) ->
  findIndex T (<[i := set_count n t]> h) = Some (i, set_count n t).
Proof.
  unfold findIndex. intros (Hi & HP & Hmin)%list_find_Some.
  apply list_find_insert_Some. right. left.
  repeat split; try done. by eapply lookup_lt_Some.
Qed.

Lemma set_count_restore t n : set_count (t_count t) (set_count n t) = t.
Proof. by destruct t. Qed.

(** Selling from the list a purchase wrote gives back the list before the
    purchase, without the entry when its count was 0 before the purchase. *)
Lemma sell_after_buy_holding T u h :
  holding_after_sell T (holding_after_buy T u h) =
    match findIndex T h with
    | Some (i, t) => if decide (t_count t = 0) then delete i h else h
    | None => h
    end.
Proof.
  unfold holding_after_sell, holding_after_buy.
  destruct (findIndex T h) as [[i t]|] eqn:Hf.
  - rewrite (findIndex_updated _ _ _ _ _ Hf). simpl.
    rewrite list_insert_insert_eq.
    replace (t_count t + 1 - 1) with (t_count t) by lia.
    rewrite set_count_restore.
    apply list_find_Some in Hf as (Hi & _).
    rewrite (list_insert_id _ _ _ Hi). done.
  - rewrite (findIndex_new_entry _ _ _ Hf). simpl.
    replace (length h) with (length h + 0)%nat at 2 by lia.
    rewrite insert_app_r. simpl. rewrite delete_middle. apply app_nil_r.
Qed.

(** ** Tipping *)

(** A tip from [s] to [r] of [a] that completes successfully (so
    [r ≠ s], [0 < a] and the balance the client holds is at least [a]),
    when the balance the client holds for [s] is the stored balance of [s]:
    the stored balance of [s] decreases by exactly [a], the stored balance of
    [r] increases by exactly [a], a wallet record of [r] that did not exist is
    created with balance [a], and the sum of the stored balances over all
    wallet records is unchanged. *)
Theorem tip_moves_amount_when_cache_agrees st s r a b :
  currentWalletAddress (client st) = Some s ->
  stored_balance (mirror st) s = Some b ->
  gor_balance (walletData (client st)) = b ->
  let st' := run (handleTip r a) st in
  tipped a st st' ->
  (r ≠ s ∧ 0 < a ∧ a <= b) ∧
  stored_balance (mirror st') s = Some (b - a) ∧
  stored_balance (mirror st') r = Some (default 0 (stored_balance (mirror st) r) + a) ∧
  (wallets (mirror st) !! r = None -> wallets (mirror st') !! r = Some (mkWallet a [])) ∧
  total_balance (mirror st') = total_balance (mirror st).
Proof.
  intros Hme Hb Hc st' Hok.
  destruct (handleTip_success st s r a Hme Hok) as (Hne & Ha & Hle & Hw & _).
  fold st' in Hw. rewrite Hc in Hw, Hle.
  unfold stored_balance, total_balance in *. rewrite Hw.
  destruct (wallets (mirror st) !! s) as [ws|] eqn:Hs; [|done]. simpl in Hb.
  injection Hb as Hb.
  split; [done|]. repeat split.
  - rewrite lookup_insert_ne by done. rewrite lookup_alter_eq, Hs. simpl. done.
  - rewrite lookup_insert_eq. by destruct (wallets (mirror st) !! r).
  - intros Hr. rewrite lookup_insert_eq, Hr. simpl. f_equal.
  - rewrite (alter_Some_insert _ _ _ ws Hs).
    destruct (wallets (mirror st) !! r) as [wr|] eqn:Hr; simpl.
    + rewrite (sum_balances_insert_Some _ r _ wr) by (by rewrite lookup_insert_ne).
      rewrite (sum_balances_insert_Some _ s _ ws Hs). simpl. lia.
    + rewrite sum_balances_insert_None by (by rewrite lookup_insert_ne).
      rewrite (sum_balances_insert_Some _ s _ ws Hs). simpl. lia.
Qed.

Lemma tip_moves_amount_when_cache_agrees_witness :
  let st' := run (handleTip "B" 3) fresh_state in
  ("B" ≠ "A" ∧ 0 < 3 ∧ 3 <= 5) ∧
  stored_balance (mirror st') "A" = Some (5 - 3) ∧
  stored_balance (mirror st') "B" =
    Some (default 0 (stored_balance (mirror fresh_state) "B") + 3) ∧
  (wallets (mirror fresh_state) !! "B" = None ->
   wallets (mirror st') !! "B" = Some (mkWallet 3 [])) ∧
  total_balance (mirror st') = total_balance (mirror fresh_state).
Proof.
  apply (tip_moves_amount_when_cache_agrees fresh_state "A" "B" 3 5).
  - reflexivity.
  - reflexivity.
  - reflexivity.
  - apply list_elem_of_In. vm_compute. auto.
Defined.

(** The store says 10 for the sender and the client still holds 5: a tip of
    3 passes every guard and completes, and writes 5 - 3 over the stored 10.
    The sender's stored balance decreases by 8, and the total by 5. *)
Lemma tip_from_stale_cache :
  let st := stale_state in
  let st' := run (handleTip "B" 3) st in
  currentWalletAddress (client st) = Some "A" ∧
  stored_balance (mirror st) "A" = Some 10 ∧
  gor_balance (walletData (client st)) = 5 ∧
  tipped 3 st st' ∧
  stored_balance (mirror st') "A" = Some 2 ∧
  stored_balance (mirror st') "A" ≠ Some (10 - 3) ∧
  stored_balance (mirror st') "B" = Some 3 ∧
  total_balance (mirror st) = 10 ∧
  total_balance (mirror st') = 5 ∧
  total_balance (mirror st') ≠ total_balance (mirror st).
Proof.
  repeat split; try reflexivity; try (vm_compute; congruence).
  apply list_elem_of_In. vm_compute. auto.
Qed.

(** C1.  [handleTip] writes the balance the client holds minus the amount
    over the sender's stored balance, and nothing in it brings the balance
    the client holds up to date; the recipient's new balance is computed
    from the row read a moment before.  [A], with 5 in the store and in the
    cache, tips [B] 2 twice.  Both tips complete, and the stored balance
    covers each.  The first moves 2.  The second leaves the sender's stored
    balance at 3 where the claim has it decrease by 2, while [B] is credited
    again: the sum of the stored balances goes from 5 to 7. *)
Theorem tip_twice_debits_once :
  let st0 := fresh_state in
  let st1 := run (handleTip "B" 2) st0 in
  let st2 := run (handleTip "B" 2) st1 in
  wallets (mirror st0) !! "A" = Some (walletData (client st0)) ∧
  tipped 2 st0 st1 ∧ tipped 2 st1 st2 ∧
  stored_balance (mirror st0) "A" = Some 5 ∧
  stored_balance (mirror st0) "B" = None ∧
  total_balance (mirror st0) = 5 ∧
  stored_balance (mirror st1) "A" = Some 3 ∧
  stored_balance (mirror st1) "B" = Some 2 ∧
  total_balance (mirror st1) = 5 ∧
  gor_balance (walletData (client st1)) = 5 ∧
  stored_balance (mirror st2) "A" = Some 3 ∧
  stored_balance (mirror st2) "B" = Some 4 ∧
  total_balance (mirror st2) = 7 ∧
  submitted st2 = [mkTransfer "A" "B" 2; mkTransfer "A" "B" 2].
Proof.
  repeat split; try reflexivity.
  all: apply list_elem_of_In; vm_compute; auto.
Qed.

(** ** Ticket purchase and sale *)

(** A purchase of a ticket of [T] followed by a sale of a ticket of [T]
    by the same buyer, both successful, when the wallet the client holds is
    the stored wallet record before the purchase and again before the sale
    (the cache has been refreshed from the store in between), and
    [tickets_earned] of [T] is not negative: the buyer's stored balance is
    the balance before the purchase, the profile of [T] (with its
    [tickets_earned]) is the profile before the purchase, and the stored
    holding list is the list before the purchase, from which an entry of [T]
    whose count was 0 has been removed.  In particular a buyer who held no
    ticket of [T] holds no entry for [T] afterwards: the entry is removed,
    not kept with count 0. *)
Theorem buy_then_sell_round_trip st0 st1 s T w0 p0 :
  currentWalletAddress (client st0) = Some s ->
  wallets (mirror st0) !! s = Some w0 ->
  walletData (client st0) = w0 ->
  profiles (mirror st0) !! T = Some p0 ->
  0 <= tickets_earned p0 ->
  bought st0 (run (handleBuyTicket T) st0) ->
  mirror st1 = mirror (run (handleBuyTicket T) st0) ->
  currentWalletAddress (client st1) = Some s ->
  wallets (mirror st1) !! s = Some (walletData (client st1)) ->
  sold st1 (run (handleSellTicket T) st1) ->
  let st2 := run (handleSellTicket T) st1 in
  stored_balance (mirror st2) s = Some (gor_balance w0) ∧
  profiles (mirror st2) !! T = Some p0 ∧
  tickets_holding <$> wallets (mirror st2) !! s =
    Some (match findIndex T (tickets_holding w0) with
          | Some (i, t) =>
              if decide (t_count t = 0) then delete i (tickets_holding w0)
              else tickets_holding w0
          | None => tickets_holding w0
          end) ∧
  (findIndex T (tickets_holding w0) = None -> wallets (mirror st2) !! s = Some w0).
Proof.
  intros Hme Hw0 Hcache Hp0 He Hbuy Hm1 Hme1 Hsync Hsell st2.
  destruct (handleBuyTicket_success st0 s T Hme Hbuy)
    as (Hne & _ & pT & HpT & Hw1 & Hp1 & _).
  rewrite Hp0 in HpT. injection HpT as <-.
  rewrite <- Hm1 in Hw1, Hp1. rewrite Hcache in Hw1.
  rewrite Hw1, lookup_alter_eq, Hw0 in Hsync. simpl in Hsync.
  injection Hsync as Hsync.
  destruct (handleSellTicket_success st1 s T Hme1 Hsell)
    as (i & t & pT1 & _ & _ & HpT1 & Hw2 & Hp2 & _).
  fold st2 in Hw2, Hp2.
  rewrite <- Hsync in Hw2. simpl in Hw2.
  rewrite sell_after_buy_holding in Hw2.
  rewrite Hp1, lookup_alter_eq, Hp0 in HpT1. simpl in HpT1. injection HpT1 as <-.
  simpl in Hp2.
  assert (wallets (mirror st2) !! s =
    Some (mkWallet (gor_balance w0)
      (match findIndex T (tickets_holding w0) with
       | Some (i, t) =>
           if decide (t_count t = 0) then delete i (tickets_holding w0)
           else tickets_holding w0
       | None => tickets_holding w0
       end))) as Hs2.
  { rewrite Hw2, lookup_alter_eq, Hw1, lookup_alter_eq, Hw0. simpl.
    do 2 f_equal. lia. }
  unfold stored_balance. rewrite Hs2. simpl.
  split; [done|]. split; [|split; [done|]].
  - rewrite Hp2, lookup_alter_eq, Hp1, lookup_alter_eq, Hp0. simpl.
    f_equal. destruct p0 as [u b fo fg te bl]. unfold set_tickets_earned. simpl in *.
    f_equal. lia.
  - intros ->. by destruct w0.
Qed.

Lemma buy_then_sell_round_trip_witness :
  let st1 := run fetchWalletData (run (handleBuyTicket "B") fresh_state) in
  let st2 := run (handleSellTicket "B") st1 in
  stored_balance (mirror st2) "A" = Some (gor_balance (mkWallet 5 [])) ∧
  profiles (mirror st2) !! "B" = Some bob ∧
  tickets_holding <$> wallets (mirror st2) !! "A" =
    Some (match findIndex "B" (tickets_holding (mkWallet 5 [])) with
          | Some (i, t) =>
              if decide (t_count t = 0)
              then delete i (tickets_holding (mkWallet 5 []))
              else tickets_holding (mkWallet 5 [])
          | None => tickets_holding (mkWallet 5 [])
          end) ∧
  (findIndex "B" (tickets_holding (mkWallet 5 [])) = None ->
   wallets (mirror st2) !! "A" = Some (mkWallet 5 [])).
Proof.
  apply (buy_then_sell_round_trip fresh_state
           (run fetchWalletData (run (handleBuyTicket "B") fresh_state))
           "A" "B" (mkWallet 5 []) bob).
  - reflexivity.
  - reflexivity.
  - reflexivity.
  - reflexivity.
  - simpl. lia.
  - apply list_elem_of_In. vm_compute. auto.
  - reflexivity.
  - reflexivity.
  - reflexivity.
  - apply list_elem_of_In. vm_compute. auto.
Defined.

(** Two runs in which the wallet the client holds lags behind the store.
    First: the client holds what the store holds, buys, and sells before its
    cache is refreshed; the stored balance goes from 5 to 6.  Second: the
    store says 10 while the client holds 5; after the purchase, a refresh and
    the sale the stored balance is 5. *)
Lemma buy_then_sell_from_lagging_cache :
  (let st0 := holder_state in
   let st1 := run (handleBuyTicket "B") st0 in
   let st2 := run (handleSellTicket "B") st1 in
   wallets (mirror st0) !! "A" = Some (walletData (client st0)) ∧
   bought st0 st1 ∧ sold st1 st2 ∧
   stored_balance (mirror st0) "A" = Some 5 ∧
   stored_balance (mirror st2) "A" = Some 6) ∧
  (let st0 := stale_state in
   let st1 := run fetchWalletData (run (handleBuyTicket "B") st0) in
   let st2 := run (handleSellTicket "B") st1 in
   bought st0 (run (handleBuyTicket "B") st0) ∧
   wallets (mirror st1) !! "A" = Some (walletData (client st1)) ∧
   sold st1 st2 ∧
   stored_balance (mirror st0) "A" = Some 10 ∧
   stored_balance (mirror st2) "A" = Some 5).
Proof.
  repeat split; try reflexivity.
  all: apply list_elem_of_In; vm_compute; auto.
Qed.

(** C5.  [handleBuyTicket] and [handleSellTicket] write the balance and the
    holding list computed from the wallet the client holds, and neither
    brings that wallet up to date.  [A] holds 5 and one ticket of [B], in
    the store and in the cache, buys a ticket of [B] and sells one.  Both
    complete.  The purchase leaves 4 and two tickets in the store; the sale
    writes 5 + 1 and the cached list less one ticket over it.  The stored
    balance is 6 where it was 5 before the purchase, and the ticket held
    before the purchase is gone; [tickets_earned] of [B] is back at 1. *)
Theorem buy_then_sell_without_refresh :
  let st0 := holder_state in
  let st1 := run (handleBuyTicket "B") st0 in
  let st2 := run (handleSellTicket "B") st1 in
  wallets (mirror st0) !! "A" = Some (walletData (client st0)) ∧
  bought st0 st1 ∧ sold st1 st2 ∧
  wallets (mirror st0) !! "A" = Some (mkWallet 5 [mkTicket "B" 1 "bob"]) ∧
  wallets (mirror st1) !! "A" = Some (mkWallet 4 [mkTicket "B" 2 "bob"]) ∧
  wallets (mirror st2) !! "A" = Some (mkWallet 6 []) ∧
  tickets_earned <$> profiles (mirror st0) !! "B" = Some 1 ∧
  tickets_earned <$> profiles (mirror st1) !! "B" = Some 2 ∧
  tickets_earned <$> profiles (mirror st2) !! "B" = Some 1 ∧
  total_balance (mirror st0) = 5 ∧ total_balance (mirror st2) = 6.
Proof.
  repeat split; try reflexivity.
  all: apply list_elem_of_In; vm_compute; auto.
Qed.

(** ** Which balance a settlement reads, and how it writes *)




(** C7.  The mirror-store writes of a tip, a ticket purchase and a ticket
    sale are unconditional updates keyed on the wallet address alone.  When
    the outside world reports no error, each of the three operations
    succeeds and its write to the sender's wallet record takes effect
    whatever record [w_stored] the store holds under that key: the balance
    written is computed from the wallet the client holds, and so is the
    holding list that a purchase or a sale writes; the recipient of a tip
    gets the balance just read plus the amount, and [tickets_earned] the
    value just read plus or minus 1.  No comparison with the record last
    observed is made, and there is no stale-update error. *)
Theorem settlement_writes_ignore_stored_record
    st s prof target amount w_stored p_target :
  currentWalletAddress (client st) = Some s ->
  currentUserProfile (client st) = Some prof ->
  connected (client st) = true ->
  faults st = [] ->
  chain st = [] ->
  s ≠ target ->
  wallets (mirror st) !! s = Some w_stored ->
  profiles (mirror st) !! target = Some p_target ->
  let wd := walletData (client st) in
  (0 < amount -> amount <= gor_balance wd ->
   let st' := run (handleTip target amount) st in
   tipped amount st st' ∧
   wallets (mirror st') !! s =
     Some (mkWallet (gor_balance wd - amount) (tickets_holding w_stored)) ∧
   wallets (mirror st') !! target =
     Some (upsert_row (default 0 (stored_balance (mirror st) target) + amount)
             (wallets (mirror st) !! target))) ∧
  (1 <= gor_balance wd ->
   let st' := run (handleBuyTicket target) st in
   bought st st' ∧
   wallets (mirror st') !! s =
     Some (mkWallet (gor_balance wd - 1)
             (holding_after_buy target (username p_target) (tickets_holding wd))) ∧
   profiles (mirror st') !! target =
     Some (set_tickets_earned (tickets_earned p_target + 1) p_target)) ∧
  (∀ i t, findIndex target (tickets_holding wd) = Some (i, t) -> t_count t ≠ 0 ->
   let st' := run (handleSellTicket target) st in
   sold st st' ∧
   wallets (mirror st') !! s =
     Some (mkWallet (gor_balance wd + 1)
             (holding_after_sell target (tickets_holding wd))) ∧
   profiles (mirror st') !! target =
     Some (set_tickets_earned (Z.max 0 (tickets_earned p_target - 1)) p_target)).
Proof.
  open_state st. intros -> -> -> -> -> Hne Hw Hp.
  split; [|split].
  - intros Hpos Hle. unfold tipped, stored_balance. unfold_handlers. simpl.
    repeat (case_decide; simpl); try done; try lia.
    rewrite lookup_alter_ne by done.
    destruct (wallets m !! target) eqn:Ht; simpl.
    all: split; [reduce_shown; apply list_elem_of_In; simpl; auto|].
    all: split; [|by rewrite lookup_insert_eq, lookup_alter_ne, Ht].
    all: rewrite lookup_insert_ne by done; rewrite lookup_alter_eq, Hw; done.
  - intros Hle. unfold bought, holding_after_buy. unfold_handlers. simpl.
    repeat (case_decide; simpl); try done; try lia.
    destruct (findIndex target (tickets_holding wd)) as [[i t]|] eqn:Hf; simpl.
    all: repeat (rewrite Hp; simpl).
    all: split; [reduce_shown; apply list_elem_of_In; simpl; auto|].
    all: split; rewrite lookup_alter_eq; [by rewrite Hw|by rewrite Hp].
  - intros i t Hf Hc. unfold sold, holding_after_sell. unfold_handlers. simpl.
    rewrite Hf. simpl. rewrite decide_False by done. simpl. rewrite Hp. simpl.
    split; [reduce_shown; apply list_elem_of_In; simpl; auto|].
    split; rewrite lookup_alter_eq; [by rewrite Hw|by rewrite Hp].
Qed.

Lemma settlement_writes_ignore_stored_record_witness :
  let st := diverged_state in
  let wd := walletData (client st) in
  (let st' := run (handleTip "B" 3) st in
   tipped 3 st st' ∧
   wallets (mirror st') !! "A" =
     Some (mkWallet (gor_balance wd - 3)
             (tickets_holding (mkWallet 10 [mkTicket "B" 3 "bob"]))) ∧
   wallets (mirror st') !! "B" =
     Some (upsert_row (default 0 (stored_balance (mirror st) "B") + 3)
             (wallets (mirror st) !! "B"))) ∧
  (let st' := run (handleBuyTicket "B") st in
   bought st st' ∧
   wallets (mirror st') !! "A" =
     Some (mkWallet (gor_balance wd - 1)
             (holding_after_buy "B" (username (set_tickets_earned 3 bob))
                (tickets_holding wd))) ∧
   profiles (mirror st') !! "B" =
     Some (set_tickets_earned (tickets_earned (set_tickets_earned 3 bob) + 1)
             (set_tickets_earned 3 bob))) ∧
  (let st' := run (handleSellTicket "B") st in
   sold st st' ∧
   wallets (mirror st') !! "A" =
     Some (mkWallet (gor_balance wd + 1) (holding_after_sell "B" (tickets_holding wd))) ∧
   profiles (mirror st') !! "B" =
     Some (set_tickets_earned
             (Z.max 0 (tickets_earned (set_tickets_earned 3 bob) - 1))
             (set_tickets_earned 3 bob))).
Proof.
  destruct (settlement_writes_ignore_stored_record diverged_state "A" alice "B" 3
              (mkWallet 10 [mkTicket "B" 3 "bob"]) (set_tickets_earned 3 bob))
    as (Htip & Hbuy & Hsell);
    [reflexivity | reflexivity | reflexivity | reflexivity | reflexivity
    | discriminate | reflexivity | reflexivity |].
  split; [|split].
  - apply Htip; simpl; lia.
  - apply Hbuy; simpl; lia.
  - apply (Hsell 0%nat (mkTicket "B" 1 "bob")); [reflexivity | simpl; lia].
Defined.

(** The stored wallet of the sender (balance 10, three tickets of [B]) is
    not the wallet its client observed (balance 5, one ticket of [B]).  The
    tip and the sale both succeed and both writes take effect: the sale
    replaces the three stored tickets by the empty list. *)
Lemma write_over_diverged_record :
  let st := diverged_state in
  let tip := run (handleTip "B" 3) st in
  let sell := run (handleSellTicket "B") st in
  wallets (mirror st) !! "A" = Some (mkWallet 10 [mkTicket "B" 3 "bob"]) ∧
  walletData (client st) = mkWallet 5 [mkTicket "B" 1 "bob"] ∧
  wallets (mirror st) !! "A" ≠ Some (walletData (client st)) ∧
  tipped 3 st tip ∧
  wallets (mirror tip) !! "A" = Some (mkWallet 2 [mkTicket "B" 3 "bob"]) ∧
  sold st sell ∧
  wallets (mirror sell) !! "A" = Some (mkWallet 6 []).
Proof.
  repeat split; try reflexivity; try (vm_compute; congruence).
  all: apply list_elem_of_In; vm_compute; auto.
Qed.

(** ** The denormalised counters of a post *)

Lemma cardinality_push l a : a ∉ l -> cardinality (l ++ [a]) = cardinality l + 1.
Proof.
  intros Hn. unfold cardinality.
  rewrite list_to_set_app_L. simpl. rewrite union_empty_r_L.
  rewrite size_union; [rewrite size_singleton; lia|].
  intros x Hx ->%elem_of_singleton. by apply elem_of_list_to_set in Hx.
Qed.

Lemma cardinality_filter_out l a :
  a ∈ l -> cardinality (filter (fun addr => addr ≠ a) l) = cardinality l - 1 ∧
           1 <= cardinality l.
Proof.
  intros Hin. unfold cardinality.
  assert (list_to_set (C := gset string) (filter (fun addr => addr ≠ a) l)
          = list_to_set l ∖ {[a]}) as ->.
  { apply set_eq. intros x. rewrite elem_of_difference, !elem_of_list_to_set.
    rewrite list_elem_of_filter, elem_of_singleton. tauto. }
  assert ({[a]} ⊆ list_to_set (C := gset string) l) as Hsub.
  { intros x ->%elem_of_singleton. by apply elem_of_list_to_set. }
  rewrite size_difference by done. rewrite size_singleton.
  apply subseteq_size in Hsub. rewrite size_singleton in Hsub. lia.
Qed.

(** A repost keeps both counters equal to the cardinalities: the handler
    looks the address up in the reposts it has just fetched. *)
Lemma handleRepost_keeps_counters st postId p :
  posts (mirror st) !! postId = Some p ->
  counters_match p ->
  ∀ p', posts (mirror (run (handleRepost postId) st)) !! postId = Some p' ->
        counters_match p'.
Proof.
  open_state st. intros Hp [Hl Hr] p'. unfold_handlers. simpl.
  destruct me as [s|], prof as [prof|]; simpl; try (intros; by simplify_eq).
  repeat (first [split_script | rewrite Hp; simpl | case_decide; simpl]).
  all: try (intros; by simplify_eq).
  all: rewrite lookup_alter_eq, Hp; simpl; intros [= <-].
  all: split; simpl; [done|]; rewrite cardinality_push by done; lia.
Qed.

(** A like or unlike keeps them equal when the flag the caller passes says
    what the stored likes say. *)
Lemma handleLike_keeps_counters st me postId flag p :
  currentWalletAddress (client st) = Some me ->
  posts (mirror st) !! postId = Some p ->
  counters_match p ->
  (flag = true <-> me ∈ likes p) ->
  ∀ p', posts (mirror (run (handleLike postId flag) st)) !! postId = Some p' ->
        counters_match p'.
Proof.
  open_state st. intros -> Hp [Hl Hr] Hflag p'. unfold_handlers. simpl.
  destruct flag; repeat (first [split_script | rewrite Hp; simpl]).
  all: try (intros; by simplify_eq).
  all: rewrite lookup_alter_eq, Hp; simpl; intros [= <-].
  all: split; simpl; [|done].
  all: try (destruct (cardinality_filter_out (likes p) me) as [-> ?];
            [by apply Hflag|lia]).
  all: rewrite cardinality_push; [lia|]; intros Hin; apply Hflag in Hin; done.
Qed.

(** C4.  [handleLike] takes the word of its caller for whether the address
    has liked the post, and the caller reads it from its cached copy of the
    posts.  On a post nobody has liked, with matching counters, two like
    requests of [B] that both carry [isCurrentlyLiked = false] leave
    [likes = [B; B]] and [likes_count = 2] for a likes set of cardinality 1;
    the unlike that follows leaves [likes = []] and [likes_count = 1]. *)
Theorem like_twice_breaks_likes_count :
  let st1 := run (handleLike 1 false) reader_state in
  let st2 := run (handleLike 1 false) st1 in
  let st3 := run (handleLike 1 true) st2 in
  posts (mirror reader_state) !! 1%nat = Some hello ∧
  likes_count hello = cardinality (likes hello) ∧
  (∃ p, posts (mirror st2) !! 1%nat = Some p ∧
        likes p = ["B"; "B"] ∧ likes_count p = 2 ∧ cardinality (likes p) = 1) ∧
  (∃ p, posts (mirror st3) !! 1%nat = Some p ∧
        likes p = [] ∧ likes_count p = 1 ∧ cardinality (likes p) = 0).
Proof.
  split; [reflexivity|]. split; [reflexivity|]. split.
  - eexists. split; [reflexivity|]. repeat split; reflexivity.
  - eexists. split; [reflexivity|]. repeat split; reflexivity.
Qed.

(** ** The cache refresh, and three runs on concrete states *)

(** [fetchWalletData] on an existing wallet record, when the read reports no
    error, makes the wallet the client holds the stored one. *)
Lemma fetchWalletData_refreshes st me w :
  currentWalletAddress (client st) = Some me ->
  wallets (mirror st) !! me = Some w ->
  hd false (faults st) = false ->
  let st' := run fetchWalletData st in
  mirror st' = mirror st ∧ walletData (client st') = w ∧
  currentWalletAddress (client st') = Some me.
Proof.
  open_state st. intros -> Hw Hf. unfold_handlers. simpl.
  destruct fs as [|[] fs]; simpl in *; try done; rewrite Hw; done.
Qed.

(** [A] (balance 5) tips [B] 3: [A] has 2, [B] has 3, and one [tip]
    notification is recorded for [B]. *)
Example scenario_tip :
  let st' := run (handleTip "B" 3) fresh_state in
  stored_balance (mirror st') "A" = Some 2 ∧
  stored_balance (mirror st') "B" = Some 3 ∧
  notifications (mirror st') =
    [mkNotification "B" "tip" "alice tipped you 3 GOR!" None "A" false].
Proof. repeat split; reflexivity. Qed.

(** [B] likes the post of [A], then unlikes it. *)
Example scenario_like_unlike :
  let st1 := run (handleLike 1 false) reader_state in
  let st2 := run (handleLike 1 true) st1 in
  posts (mirror st1) !! 1%nat = Some (set_likes ["B"] 1 hello) ∧
  posts (mirror st2) !! 1%nat = Some hello.
Proof. split; reflexivity. Qed.

(** [A] follows [B], then unfollows: one [follow] notification in all. *)
Example scenario_follow_unfollow :
  let st1 := run (handleFollowToggle "B" false) fresh_state in
  let st2 := run (handleFollowToggle "B" true) st1 in
  following <$> profiles (mirror st1) !! "A" = Some ["B"] ∧
  followers <$> profiles (mirror st1) !! "B" = Some ["A"] ∧
  notifications (mirror st1) =
    [mkNotification "B" "follow" "alice started following you!" None "A" false] ∧
  following <$> profiles (mirror st2) !! "A" = Some [] ∧
  followers <$> profiles (mirror st2) !! "B" = Some [] ∧
  notifications (mirror st2) = notifications (mirror st1).
Proof. repeat split; reflexivity. Qed.

(** ** What no operation of the component does

    [execute] runs one handler of the component; the theorems of this
    section hold for every operation, every state, and every script of store
    faults and ledger outcomes. *)

(** X1.  One operation submits at most one transfer to the ledger, and a
    transfer it submits is signed by the connected address, goes to another
    address and carries a positive amount. *)
Theorem submitted_transfers_are_sound o st :
  ∃ added,
    submitted (run (execute o) st) = submitted st ++ added ∧
    (length added <= 1)%nat ∧
    Forall (transfer_ok (currentWalletAddress (client st))) added.
Proof.
  open_state st. destruct o; unfold_all; simpl.
  all: try destruct composer as [txt [img|]]; simpl.
  all: exec_all.
  all: first
    [ exists []; split; [by rewrite app_nil_r|split; [simpl; lia|constructor]]
    | eexists [_]; split; [reflexivity|split; [simpl; lia|]];
      repeat constructor; simpl; try done; try lia ].
Qed.

(** X2.  No operation deletes a post or changes its author, its content or
    its image: the likes, the reposts, the three counters and the author's
    display name are all that is ever rewritten. *)
Theorem posts_keep_author_and_content o st id p :
  posts (mirror st) !! id = Some p ->
  ∃ p', posts (mirror (run (execute o) st)) !! id = Some p' ∧ post_kept p p'.
Proof.
  open_state st. intros Hp.
  assert (fresh (dom (posts m)) ≠ id) as Hfresh.
  { intros <-. apply (is_fresh (dom (posts m))). apply elem_of_dom. eauto. }
  destruct o; unfold_all; simpl.
  all: try destruct composer as [txt [img|]]; simpl.
  all: exec_all.
  all: rewrite ?lookup_insert_ne by done.
  all: rewrite ?lookup_fmap, ?lookup_alter.
  all: repeat case_decide; subst.
  all: rewrite ?Hp; simpl.
  all: try (eexists; split; [reflexivity|]; repeat split; simpl; done).
  all: simplify_eq.
  all: destruct (decide (author_address p = s)); eexists; (split; [reflexivity|]); by repeat split.
Qed.

Lemma posts_keep_author_and_content_witness :
  ∃ p', posts (mirror (run (execute (Op_save_profile "al" "gm")) busy_state)) !! 1%nat
        = Some p' ∧
        post_kept (set_comments_count 1 hello) p'.
Proof.
  apply (posts_keep_author_and_content (Op_save_profile "al" "gm") busy_state 1%nat
           (set_comments_count 1 hello)).
  reflexivity.
Defined.

(** X3.  Comments and notifications are only ever appended: a stored comment
    keeps its place, post, author and text (its display name may be
    rewritten), a stored notification keeps its place and everything but its
    [read] flag, which goes from unread to read and never back. *)
Theorem comments_and_notifications_persist o st :
  let m := mirror st in
  let m' := mirror (run (execute o) st) in
  (∀ i c, comments m !! i = Some c ->
          ∃ c', comments m' !! i = Some c' ∧ comment_kept c c') ∧
  (∀ i n, notifications m !! i = Some n ->
          ∃ n', notifications m' !! i = Some n' ∧ notification_kept n n').
Proof.
  open_state st.
  destruct o; unfold_all; simpl.
  all: try destruct composer as [txt [img|]]; simpl.
  all: exec_all.
  all: split; [intros i c0 Hc|intros i n0 Hn].
  all: rewrite ?list_lookup_fmap.
  all: try (rewrite lookup_app_l by (by eapply lookup_lt_Some)).
  all: try (rewrite list_lookup_alter; case_decide; subst).
  all: rewrite ?Hc, ?Hn; simpl.
  all: repeat case_decide.
  all: eexists; (split; [reflexivity|]); by repeat split.
Qed.

Lemma comments_and_notifications_persist_witness :
  let m' := mirror (run (execute (Op_mark_read 0)) busy_state) in
  (∃ c', comments m' !! 0%nat = Some c' ∧ comment_kept (mkComment 1 "B" "bob" "gm") c') ∧
  (∃ n', notifications m' !! 0%nat = Some n' ∧
         notification_kept
           (mkNotification "A" "comment" "bob commented on your post" (Some 1%nat)
              "B" false) n').
Proof.
  destruct (comments_and_notifications_persist (Op_mark_read 0) busy_state) as [Hc Hn].
  split; [apply (Hc 0%nat)|apply (Hn 0%nat)]; reflexivity.
Defined.

(** X4.  No operation removes a wallet record or a profile. *)
Theorem wallets_and_profiles_are_never_removed o st :
  let m := mirror st in
  let m' := mirror (run (execute o) st) in
  dom (wallets m) ⊆ dom (wallets m') ∧ dom (profiles m) ⊆ dom (profiles m').
Proof.
  open_state st.
  destruct o; unfold_all; simpl.
  all: try destruct composer as [txt [img|]]; simpl.
  all: exec_all.
  all: rewrite ?dom_insert_L, ?dom_alter_L.
  all: split; set_solver.
Qed.

Lemma holder_mirror_tickets_earned a p :
  profiles holder_mirror !! a = Some p -> 0 <= tickets_earned p.
Proof. intros H. each_row H. Qed.

(** X5.  When no stored profile has a negative [tickets_earned], none has
    after any operation: a sale writes [Math.max(0, tickets_earned - 1)], a
    purchase adds one, and a profile is created with 0. *)
Theorem tickets_earned_stays_nonnegative o st :
  (∀ a p, profiles (mirror st) !! a = Some p -> 0 <= tickets_earned p) ->
  ∀ a p, profiles (mirror (run (execute o) st)) !! a = Some p ->
         0 <= tickets_earned p.
Proof.
  open_state st. intros Hinv a q.
  destruct o; unfold_all; simpl.
  all: try destruct composer as [txt [img|]]; simpl.
  all: exec_all.
  all: intros Hq.
  all: repeat match goal with
       | H : profiles _ !! _ = Some _ |- _ => apply Hinv in H
       end.
  all: repeat match goal with
       | H : alter _ _ _ !! _ = Some _ |- _ =>
           apply lookup_alter_Some in H as [(-> & ? & H & ->)|[? H]]; simpl
       | H : <[_:=_]> _ !! _ = Some _ |- _ =>
           apply lookup_insert_Some in H as [(-> & <-)|[? H]]; simpl
       end.
  all: repeat match goal with
       | H : profiles _ !! _ = Some _ |- _ => apply Hinv in H
       end.
  all: simpl in *; try lia.
Qed.

Lemma tickets_earned_stays_nonnegative_witness :
  ∃ p, profiles (mirror (run (execute (Op_sell "B")) holder_state)) !! "B" = Some p ∧
       0 <= tickets_earned p.
Proof.
  eexists. split; [reflexivity|].
  apply (tickets_earned_stays_nonnegative (Op_sell "B") holder_state
           holder_mirror_tickets_earned "B").
  reflexivity.
Defined.

Lemma fresh_mirror_balances a w :
  wallets fresh_mirror !! a = Some w -> 0 <= gor_balance w.
Proof. intros H. each_row H. Qed.

(** X6.  When no stored balance is negative and the balance the client holds
    is not negative, the same holds after any operation: a tip and a
    purchase are refused unless the cached balance covers them. *)
Theorem balances_stay_nonnegative o st :
  (∀ a w, wallets (mirror st) !! a = Some w -> 0 <= gor_balance w) ->
  0 <= gor_balance (walletData (client st)) ->
  let st' := run (execute o) st in
  (∀ a w, wallets (mirror st') !! a = Some w -> 0 <= gor_balance w) ∧
  0 <= gor_balance (walletData (client st')).
Proof.
  open_state st. intros Hinv Hc.
  destruct o; unfold_all; simpl.
  all: try destruct composer as [txt [img|]]; simpl.
  all: exec_all.
  all: split; [intros a0 q Hq|simpl; try lia].
  all: repeat match goal with
       | H : alter _ _ _ !! _ = Some _ |- _ =>
           apply lookup_alter_Some in H as [(-> & ? & H & ->)|[? H]]; simpl
       | H : <[_:=_]> _ !! _ = Some _ |- _ =>
           apply lookup_insert_Some in H as [(-> & <-)|[? H]]; simpl
       end.
  all: repeat match goal with
       | H : wallets _ !! _ = Some _ |- _ => apply Hinv in H
       end.
  all: simpl in *; try lia.
  all: try congruence.
  all: simplify_eq/=; lia.
Qed.

Lemma balances_stay_nonnegative_witness :
  let st' := run (execute (Op_tip "B" 3)) fresh_state in
  (∀ a w, wallets (mirror st') !! a = Some w -> 0 <= gor_balance w) ∧
  0 <= gor_balance (walletData (client st')).
Proof.
  apply (balances_stay_nonnegative (Op_tip "B" 3) fresh_state).
  - exact fresh_mirror_balances.
  - simpl. lia.
Defined.

Lemma fresh_mirror_counters id p :
  posts fresh_mirror !! id = Some p -> counters_match p.
Proof. intros H. each_row H. Qed.

(** X7.  Every operation but a like or unlike keeps [likes_count] and
    [reposts_count] of every post equal to the number of distinct addresses
    in [likes] and [reposts]: a repost looks the address up in the row it
    has just read, and a new post starts with empty lists and zeros. *)
Theorem counters_match_is_kept o st :
  (∀ postId flag, o ≠ Op_like postId flag) ->
  (∀ id p, posts (mirror st) !! id = Some p -> counters_match p) ->
  ∀ id p, posts (mirror (run (execute o) st)) !! id = Some p -> counters_match p.
Proof.
  open_state st. intros Hop Hinv id q.
  destruct o; try (by exfalso; eapply Hop); clear Hop; unfold_all; simpl.
  all: try destruct composer as [txt [img|]]; simpl.
  all: exec_all.
  all: intros Hq.
  all: repeat match goal with
       | H : alter _ _ _ !! _ = Some _ |- _ =>
           apply lookup_alter_Some in H as [(-> & ? & H & ->)|[? H]]; simpl
       | H : <[_:=_]> _ !! _ = Some _ |- _ =>
           apply lookup_insert_Some in H as [(? & ?)|[? H]]; simpl
       | H : (_ <$> _) !! _ = Some _ |- _ =>
           apply lookup_fmap_Some in H as (? & <- & H)
       end.
  all: simplify_eq.
  all: repeat match goal with
       | H : posts _ !! _ = Some _ |- _ => apply Hinv in H
       end.
  all: try done.
  all: repeat case_decide; try done.
  all: try (split; reflexivity).
  all: match goal with H : counters_match _ |- _ => destruct H as [Hl Hr] end.
  all: split; simpl; try done.
  all: rewrite cardinality_push by done; lia.
Qed.

Lemma counters_match_is_kept_witness :
  ∃ p, posts (mirror (run (execute (Op_repost 1)) reader_state)) !! 1%nat = Some p ∧
       likes_count p = 0 ∧ reposts_count p = 1 ∧ counters_match p.
Proof.
  eexists. split; [reflexivity|]. split; [reflexivity|]. split; [reflexivity|].
  apply (counters_match_is_kept (Op_repost 1) reader_state) with (id := 1%nat).
  - intros postId flag. discriminate.
  - exact fresh_mirror_counters.
  - reflexivity.
Defined.

(** ** Likes, comments and follows *)

Lemma handleLike_keeps_counters_witness :
  ∃ p', posts (mirror (run (handleLike 1 false) reader_state)) !! 1%nat = Some p' ∧
        likes p' = ["B"] ∧ counters_match p'.
Proof.
  eexists. split; [reflexivity|]. split; [reflexivity|].
  apply (handleLike_keeps_counters reader_state "B" 1%nat false hello).
  - reflexivity.
  - reflexivity.
  - split; reflexivity.
  - split; [discriminate|]. intros H. by apply elem_of_nil in H.
  - reflexivity.
Defined.

Lemma filter_out_pushed (l : list string) a :
  a ∉ l -> filter (fun addr => addr ≠ a) (l ++ [a]) = l.
Proof.
  intros Hn. induction l as [|x l IH]; simpl.
  - rewrite filter_cons_False by (intros ?; done). done.
  - apply not_elem_of_cons in Hn as [Hx Hl].
    rewrite filter_cons_True by done. by rewrite IH.
Qed.

Lemma alter_alter_as_insert {K} `{Countable K} {V} (t : gmap K V) k (f g : V -> V) v :
  t !! k = Some v -> alter g k (alter f k t) = <[k := g (f v)]> t.
Proof.
  intros Hv. apply map_eq. intros j.
  destruct (decide (k = j)) as [->|Hne].
  - by rewrite !lookup_alter_eq, lookup_insert_eq, Hv.
  - by rewrite !lookup_alter_ne, lookup_insert_ne.
Qed.

(** X9.  A like by an address that is not among the likes of the post
    appends the address and adds one to [likes_count].  The unlike that
    follows gives back the likes of the post and leaves every other row and
    table as before the like; [likes_count] comes back as
    [Math.max(0, likes_count)].  So the store is as it was before the like
    exactly when the count was not negative. *)
Theorem like_then_unlike_restores st me postId p :
  currentWalletAddress (client st) = Some me ->
  posts (mirror st) !! postId = Some p ->
  me ∉ likes p ->
  let st1 := run (handleLike postId false) st in
  let st2 := run (handleLike postId true) st1 in
  liked st st1 ->
  unliked st1 st2 ->
  posts (mirror st1) !! postId =
    Some (set_likes (likes p ++ [me]) (likes_count p + 1) p) ∧
  posts (mirror st2) =
    <[postId := set_likes (likes p) (Z.max 0 (likes_count p)) p]> (posts (mirror st)) ∧
  profiles (mirror st2) = profiles (mirror st) ∧
  wallets (mirror st2) = wallets (mirror st) ∧
  comments (mirror st2) = comments (mirror st) ∧
  notifications (mirror st2) = notifications (mirror st) ∧
  (mirror st2 = mirror st <-> 0 <= likes_count p).
Proof.
  open_state st. intros -> Hp Hme. unfold_said. unfold_all. simpl.
  repeat (first [split_script | rewrite lookup_alter_eq | rewrite Hp; simpl]).
  all: unfold shown; simpl; rewrite ?drop_app_length;
    repeat rewrite <- app_assoc; rewrite ?drop_app_length; simpl.
  all: intros H1 H2; toast_cases H1; toast_cases H2.
  all: try (exfalso; intuition congruence).
  all: split; [done|].
  all: rewrite (alter_alter_as_insert _ _ _ _ p Hp).
  all: assert (set_likes (filter (fun addr => addr ≠ me) (likes p ++ [me]))
                 (Z.max 0 (likes_count p + 1 - 1))
                 (set_likes (likes p ++ [me]) (likes_count p + 1) p) =
               set_likes (likes p) (Z.max 0 (likes_count p)) p) as Heq
    by (unfold set_likes; simpl; rewrite filter_out_pushed by done;
        do 2 f_equal; lia).
  all: simpl in Heq; rewrite Heq.
  all: split; [done|]; repeat (split; [done|]).
  all: destruct m as [pr wa po co no]; unfold set_posts; simpl in *.
  all: split.
  all: try (intros [= Hpo];
            apply (f_equal (fun t => likes_count <$> t !! postId)) in Hpo;
            rewrite lookup_insert_eq, Hp in Hpo; simpl in Hpo; injection Hpo; lia).
  all: intros Hc; f_equal; apply map_eq; intros j;
    destruct (decide (postId = j)) as [<-|Hne];
    [rewrite lookup_insert_eq, Hp; f_equal; destruct p; unfold set_likes; simpl in *;
     f_equal; lia
    |by rewrite lookup_insert_ne].
Qed.

Lemma like_then_unlike_restores_witness :
  let st1 := run (handleLike 1 false) reader_state in
  let st2 := run (handleLike 1 true) st1 in
  posts (mirror st1) !! 1%nat =
    Some (set_likes (likes hello ++ ["B"]) (likes_count hello + 1) hello) ∧
  posts (mirror st2) =
    <[1%nat := set_likes (likes hello) (Z.max 0 (likes_count hello)) hello]>
      (posts (mirror reader_state)) ∧
  profiles (mirror st2) = profiles (mirror reader_state) ∧
  wallets (mirror st2) = wallets (mirror reader_state) ∧
  comments (mirror st2) = comments (mirror reader_state) ∧
  notifications (mirror st2) = notifications (mirror reader_state) ∧
  (mirror st2 = mirror reader_state <-> 0 <= likes_count hello).
Proof.
  apply (like_then_unlike_restores reader_state "B" 1%nat hello).
  - reflexivity.
  - reflexivity.
  - apply not_elem_of_nil.
  - toast_shown.
  - toast_shown.
Defined.

(** X10.  A comment that is reported added has been appended to the stored
    comments under the commenter's address and display name; the
    [comments_count] of the post is one more than the count the handler read
    (always, when no store call fails: the result of that update is not
    looked at); and a notification, if one was recorded, goes to the author
    of the post, who is then not the commenter. *)
Theorem comment_is_recorded st me prof postId commentContent :
  currentWalletAddress (client st) = Some me ->
  currentUserProfile (client st) = Some prof ->
  let st' := run (handleComment postId commentContent) st in
  commented st st' ->
  ∃ p, posts (mirror st) !! postId = Some p ∧
    comments (mirror st') =
      comments (mirror st) ++
        [mkComment postId me (or_else (username prof) (defaultUsername me))
           commentContent] ∧
    (posts (mirror st') =
       alter (set_comments_count (comments_count p + 1)) postId (posts (mirror st)) ∨
     posts (mirror st') = posts (mirror st)) ∧
    (faults st = [] ->
     posts (mirror st') =
       alter (set_comments_count (comments_count p + 1)) postId (posts (mirror st))) ∧
    profiles (mirror st') = profiles (mirror st) ∧
    wallets (mirror st') = wallets (mirror st) ∧
    (notifications (mirror st') = notifications (mirror st) ∨
     author_address p ≠ me ∧
     ∃ msg, notifications (mirror st') =
              notifications (mirror st) ++
                [mkNotification (author_address p) "comment" msg (Some postId) me false]).
Proof.
  open_state st. intros -> ->. unfold_said. unfold_all. simpl.
  exec_all; try absurd_toast.
  all: intros _; eexists; split; [done|]; simpl.
  all: repeat split; try done; auto.
  all: try (right; split; [done|]; eexists; reflexivity).
Qed.

Lemma comment_is_recorded_witness :
  let st' := run (handleComment 1 "nice") reader_state in
  ∃ p, posts (mirror reader_state) !! 1%nat = Some p ∧
    comments (mirror st') =
      comments (mirror reader_state) ++
        [mkComment 1 "B" (or_else (username bob) (defaultUsername "B")) "nice"] ∧
    (posts (mirror st') =
       alter (set_comments_count (comments_count p + 1)) 1%nat
         (posts (mirror reader_state)) ∨
     posts (mirror st') = posts (mirror reader_state)) ∧
    (faults reader_state = [] ->
     posts (mirror st') =
       alter (set_comments_count (comments_count p + 1)) 1%nat
         (posts (mirror reader_state))) ∧
    profiles (mirror st') = profiles (mirror reader_state) ∧
    wallets (mirror st') = wallets (mirror reader_state) ∧
    (notifications (mirror st') = notifications (mirror reader_state) ∨
     author_address p ≠ "B" ∧
     ∃ msg, notifications (mirror st') =
              notifications (mirror reader_state) ++
                [mkNotification (author_address p) "comment" msg (Some 1%nat) "B" false]).
Proof.
  apply (comment_is_recorded reader_state "B" bob 1%nat "nice").
  - reflexivity.
  - reflexivity.
  - toast_shown.
Defined.

(** What a follow that is reported done has written: the following list the
    client held, with the target pushed onto it, over the stored one, and
    the stored followers of the target with the follower appended. *)
Lemma handleFollowToggle_follow_success st s prof target :
  currentWalletAddress (client st) = Some s ->
  currentUserProfile (client st) = Some prof ->
  let st' := run (handleFollowToggle target false) st in
  followed st st' ->
  s ≠ target ∧
  ∃ pT, profiles (mirror st) !! target = Some pT ∧
    profiles (mirror st') =
      alter (set_followers (followers pT ++ [s])) target
        (alter (set_following (following prof ++ [target])) s (profiles (mirror st))) ∧
    currentWalletAddress (client st') = Some s ∧
    currentUserProfile (client st') =
      Some (set_following (following prof ++ [target]) prof) ∧
    (notifications (mirror st') = notifications (mirror st) ∨
     ∃ msg, notifications (mirror st') =
              notifications (mirror st) ++
                [mkNotification target "follow" msg None s false]).
Proof.
  open_state st. intros -> ->. unfold_said. unfold_all. simpl.
  case_decide; simpl; [absurd_toast|].
  repeat (first [split_script
                | rewrite (lookup_alter_ne _ _ s target) by done
                | split_lookup
                | case_bool_decide; simpl]); try absurd_toast.
  all: intros _; split; [done|]; eexists; split; [done|]; simpl.
  all: repeat split; try done.
  all: first [by left | right; eexists; reflexivity].
Qed.

(** What an unfollow that is reported done has written. *)
Lemma handleFollowToggle_unfollow_success st s prof target :
  currentWalletAddress (client st) = Some s ->
  currentUserProfile (client st) = Some prof ->
  let st' := run (handleFollowToggle target true) st in
  unfollowed st st' ->
  s ≠ target ∧
  ∃ pT, profiles (mirror st) !! target = Some pT ∧
    profiles (mirror st') =
      alter (set_followers (filter (fun a => a ≠ s) (followers pT))) target
        (alter (set_following (filter (fun a => a ≠ target) (following prof))) s
           (profiles (mirror st))) ∧
    notifications (mirror st') = notifications (mirror st) ∧
    client st' = client st.
Proof.
  open_state st. intros -> ->. unfold_said. unfold_all. simpl.
  case_decide; simpl; [absurd_toast|].
  repeat (first [split_script
                | rewrite (lookup_alter_ne _ _ s target) by done
                | split_lookup
                | case_bool_decide; simpl]); try absurd_toast.
  all: intros _; split; [done|]; eexists; split; [done|]; simpl.
  all: repeat split; done.
Qed.

(** X11.  A follow that is reported done is recorded on both sides: the
    follower is the last entry of the target's stored followers, and the
    follower's stored following list is the one the client held with the
    target appended.  No other profile is touched, nobody follows
    themselves, and the only notification it can record is a [follow]
    notification for the target. *)
Theorem follow_is_symmetric st s prof target :
  currentWalletAddress (client st) = Some s ->
  currentUserProfile (client st) = Some prof ->
  let st' := run (handleFollowToggle target false) st in
  followed st st' ->
  s ≠ target ∧
  ∃ pT, profiles (mirror st) !! target = Some pT ∧
    profiles (mirror st') !! target =
      Some (set_followers (followers pT ++ [s]) pT) ∧
    profiles (mirror st') !! s =
      set_following (following prof ++ [target]) <$> profiles (mirror st) !! s ∧
    (∀ a, a ≠ s -> a ≠ target ->
          profiles (mirror st') !! a = profiles (mirror st) !! a) ∧
    (notifications (mirror st') = notifications (mirror st) ∨
     ∃ msg, notifications (mirror st') =
              notifications (mirror st) ++
                [mkNotification target "follow" msg None s false]).
Proof.
  intros Hme Hprof st' Hf.
  destruct (handleFollowToggle_follow_success st s prof target Hme Hprof Hf)
    as (Hne & pT & HpT & Hp & _ & _ & Hn).
  fold st' in Hp, Hn. split; [done|]. exists pT. split; [done|]. rewrite Hp.
  split; [by rewrite lookup_alter_eq, lookup_alter_ne, HpT by done|].
  split; [by rewrite lookup_alter_ne, lookup_alter_eq by done|].
  split; [|done]. intros a Ha HT. by rewrite !lookup_alter_ne by done.
Qed.

Lemma follow_is_symmetric_witness :
  let st' := run (handleFollowToggle "B" false) fresh_state in
  "A" ≠ "B" ∧
  ∃ pT, profiles (mirror fresh_state) !! "B" = Some pT ∧
    profiles (mirror st') !! "B" = Some (set_followers (followers pT ++ ["A"]) pT) ∧
    profiles (mirror st') !! "A" =
      set_following (following alice ++ ["B"]) <$> profiles (mirror fresh_state) !! "A" ∧
    (∀ a, a ≠ "A" -> a ≠ "B" ->
          profiles (mirror st') !! a = profiles (mirror fresh_state) !! a) ∧
    (notifications (mirror st') = notifications (mirror fresh_state) ∨
     ∃ msg, notifications (mirror st') =
              notifications (mirror fresh_state) ++
                [mkNotification "B" "follow" msg None "A" false]).
Proof.
  apply (follow_is_symmetric fresh_state "A" alice "B").
  - reflexivity.
  - reflexivity.
  - toast_shown.
Defined.

(** X12.  After an unfollow that is reported done the follower is not among
    the stored followers of the target and the target is not in the
    follower's stored following list, however often either occurred before;
    no other profile is touched and no notification is recorded. *)
Theorem unfollow_removes_both_sides st s prof target :
  currentWalletAddress (client st) = Some s ->
  currentUserProfile (client st) = Some prof ->
  let st' := run (handleFollowToggle target true) st in
  unfollowed st st' ->
  (∃ pT', profiles (mirror st') !! target = Some pT' ∧ s ∉ followers pT') ∧
  (∀ ps', profiles (mirror st') !! s = Some ps' -> target ∉ following ps') ∧
  (∀ a, a ≠ s -> a ≠ target ->
        profiles (mirror st') !! a = profiles (mirror st) !! a) ∧
  notifications (mirror st') = notifications (mirror st).
Proof.
  intros Hme Hprof st' Hu.
  destruct (handleFollowToggle_unfollow_success st s prof target Hme Hprof Hu)
    as (Hne & pT & HpT & Hp & Hn & _).
  fold st' in Hp, Hn. rewrite Hp. split; [|split; [|split; [|done]]].
  - eexists. rewrite lookup_alter_eq, lookup_alter_ne, HpT by done.
    split; [reflexivity|]. simpl. rewrite list_elem_of_filter. tauto.
  - intros ps'. rewrite lookup_alter_ne, lookup_alter_eq by done.
    destruct (profiles (mirror st) !! s); intros [= <-]; simpl.
    rewrite list_elem_of_filter. tauto.
  - intros a Ha HT. by rewrite !lookup_alter_ne by done.
Qed.

Lemma unfollow_removes_both_sides_witness :
  let st' := run (handleFollowToggle "B" true) following_state in
  (∃ pT', profiles (mirror st') !! "B" = Some pT' ∧ "A" ∉ followers pT') ∧
  (∀ ps', profiles (mirror st') !! "A" = Some ps' -> "B" ∉ following ps') ∧
  (∀ a, a ≠ "A" -> a ≠ "B" ->
        profiles (mirror st') !! a = profiles (mirror following_state) !! a) ∧
  notifications (mirror st') = notifications (mirror following_state).
Proof.
  apply (unfollow_removes_both_sides following_state "A"
           (set_following ["B"] alice) "B").
  - reflexivity.
  - reflexivity.
  - toast_shown.
Defined.

(** X13.  Follow, then unfollow: when the following list the client holds is
    the stored one and neither side lists the other yet, the two requests
    together leave every stored profile as it was. *)
Theorem follow_then_unfollow_restores st s prof ps pT target :
  currentWalletAddress (client st) = Some s ->
  currentUserProfile (client st) = Some prof ->
  profiles (mirror st) !! s = Some ps ->
  following ps = following prof ->
  profiles (mirror st) !! target = Some pT ->
  target ∉ following prof ->
  s ∉ followers pT ->
  let st1 := run (handleFollowToggle target false) st in
  let st2 := run (handleFollowToggle target true) st1 in
  followed st st1 ->
  unfollowed st1 st2 ->
  profiles (mirror st2) = profiles (mirror st).
Proof.
  intros Hme Hprof Hps Hfg HpT Ht Hs st1 st2 Hf Hu.
  destruct (handleFollowToggle_follow_success st s prof target Hme Hprof Hf)
    as (Hne & pT0 & HpT0 & Hp1 & Hme1 & Hprof1 & _).
  rewrite HpT in HpT0. injection HpT0 as <-.
  destruct (handleFollowToggle_unfollow_success st1 s _ target Hme1 Hprof1 Hu)
    as (_ & pT1 & HpT1 & Hp2 & _).
  fold st1 in Hp1. fold st2 in Hp2. rewrite Hp2.
  rewrite Hp1, lookup_alter_eq, lookup_alter_ne, HpT in HpT1 by done.
  injection HpT1 as <-. rewrite Hp1. simpl.
  rewrite !filter_out_pushed by done.
  apply map_eq. intros a.
  destruct (decide (a = target)) as [->|Hat].
  - rewrite !lookup_alter_eq, !lookup_alter_ne, !lookup_alter_eq by done.
    rewrite !lookup_alter_ne, HpT by done. simpl. f_equal. by destruct pT.
  - rewrite lookup_alter_ne by done.
    destruct (decide (a = s)) as [->|Has].
    + rewrite lookup_alter_eq, lookup_alter_ne, lookup_alter_eq, Hps by done.
      simpl. f_equal. destruct ps; unfold set_following; simpl in *. by subst.
    + by rewrite !lookup_alter_ne by done.
Qed.

Lemma follow_then_unfollow_restores_witness :
  let st1 := run (handleFollowToggle "B" false) fresh_state in
  let st2 := run (handleFollowToggle "B" true) st1 in
  profiles (mirror st2) = profiles (mirror fresh_state).
Proof.
  apply (follow_then_unfollow_restores fresh_state "A" alice alice bob "B").
  - reflexivity.
  - reflexivity.
  - reflexivity.
  - reflexivity.
  - reflexivity.
  - apply not_elem_of_nil.
  - apply not_elem_of_nil.
  - toast_shown.
  - toast_shown.
Defined.

(** X14.  The two sides of a follow are written one after the other with
    nothing to undo the first: when the target has no profile and the first
    store call reports no error, the follower's stored following list has
    been overwritten with the target appended by the time the read of the
    target's profile fails, and all the user is shown is the failure. *)
Theorem follow_of_missing_profile_is_half_applied st s prof target :
  currentWalletAddress (client st) = Some s ->
  currentUserProfile (client st) = Some prof ->
  s ≠ target ->
  profiles (mirror st) !! target = None ->
  hd false (faults st) = false ->
  let st' := run (handleFollowToggle target false) st in
  profiles (mirror st') =
    alter (set_following (following prof ++ [target])) s (profiles (mirror st)) ∧
  notifications (mirror st') = notifications (mirror st) ∧
  ∃ e, shown st st' = [(Failure "Failed to follow/unfollow: " e, SevError)].
Proof.
  open_state st. intros -> -> Hne HT Hf. unfold_all. simpl.
  rewrite decide_False by done. simpl.
  destruct fs as [|[] fs]; simpl in *; try done.
  all: repeat (first [split_script
                     | rewrite (lookup_alter_ne _ _ s target) by done
                     | rewrite HT; simpl
                     | case_bool_decide; simpl]).
  all: split; [done|]; split; [done|]; eexists; reduce_shown; reflexivity.
Qed.

Lemma follow_of_missing_profile_is_half_applied_witness :
  let st' := run (handleFollowToggle "Z" false) fresh_state in
  profiles (mirror st') =
    alter (set_following (following alice ++ ["Z"])) "A" (profiles (mirror fresh_state)) ∧
  notifications (mirror st') = notifications (mirror fresh_state) ∧
  ∃ e, shown fresh_state st' = [(Failure "Failed to follow/unfollow: " e, SevError)].
Proof.
  apply (follow_of_missing_profile_is_half_applied fresh_state "A" alice "Z").
  - reflexivity.
  - reflexivity.
  - discriminate.
  - reflexivity.
  - reflexivity.
Defined.

(** ** The two fetch functions of the cache *)

(** X15.  [fetchWalletData] never changes a stored wallet record or the sum
    of the stored balances: all it may write is a new record with balance 0
    and no tickets, for a connected address that has none.  When it shows no
    error, the wallet the client holds afterwards is the stored record of
    the connected address. *)
Theorem fetchWalletData_keeps_the_books st :
  let st' := run fetchWalletData st in
  total_balance (mirror st') = total_balance (mirror st) ∧
  (∀ a w, wallets (mirror st) !! a = Some w -> wallets (mirror st') !! a = Some w) ∧
  (∀ s, currentWalletAddress (client st) = Some s ->
        shown st st' = [] ->
        wallets (mirror st') !! s = Some (walletData (client st')) ∧
        (wallets (mirror st) !! s = None -> walletData (client st') = mkWallet 0 [])).
Proof.
  open_state st. unfold total_balance. unfold_all. simpl.
  destruct me as [s|]; simpl.
  2: { repeat split; try done. }
  exec_all.
  all: split; [try done|split; [try done|]].
  all: try (intros s0 [= <-]; reduce_shown; intros Hs; try done; split; [try done|try done]).
  all: try (rewrite sum_balances_insert_None by done; simpl; lia).
  all: try (intros a w Hw; rewrite lookup_insert_ne; [done|]; intros <-; congruence).
  all: try (by rewrite lookup_insert_eq).
  all: try congruence.
  all: try (intros s0 [= <-]; unfold shown; simpl; rewrite drop_app_length; done).
Qed.

Lemma fetchWalletData_keeps_the_books_witness :
  let st' := run fetchWalletData reader_state in
  wallets (mirror st') !! "B" = Some (walletData (client st')) ∧
  (wallets (mirror reader_state) !! "B" = None ->
   walletData (client st') = mkWallet 0 []).
Proof.
  destruct (fetchWalletData_keeps_the_books reader_state) as (_ & _ & H).
  apply (H "B"); reflexivity.
Defined.

(** X16.  [fetchCurrentUserProfile] never changes a stored profile or a
    wallet.  When it shows no error, the client holds a profile afterwards
    and it is the stored profile of the connected address; for an address
    that had none it is the default profile, created on the spot: the name
    [User_] followed by the first eight characters of the address, the
    greeting as bio, no followers, nothing earned. *)
Theorem fetchCurrentUserProfile_creates_lazily st :
  let st' := run fetchCurrentUserProfile st in
  (∀ a p, profiles (mirror st) !! a = Some p -> profiles (mirror st') !! a = Some p) ∧
  wallets (mirror st') = wallets (mirror st) ∧
  (∀ s, currentWalletAddress (client st) = Some s ->
        shown st st' = [] ->
        profiles (mirror st') !! s = currentUserProfile (client st') ∧
        is_Some (currentUserProfile (client st')) ∧
        (profiles (mirror st) !! s = None ->
         currentUserProfile (client st') =
           Some (mkProfile (defaultUsername s) "Hello, I am new here!" [] [] 0 []))).
Proof.
  open_state st. unfold_all. simpl.
  destruct me as [s|]; simpl.
  2: { repeat split; try done. }
  exec_all.
  all: split; [try done|split; [try done|]].
  all: try (intros a p0 Hp; rewrite lookup_insert_ne; [done|]; intros <-; congruence).
  all: intros s0 [= <-]; unfold shown; simpl; rewrite ?drop_app_length; try done.
  all: intros _; rewrite ?lookup_insert_eq; repeat split; eauto; congruence.
Qed.

Lemma fetchCurrentUserProfile_creates_lazily_witness :
  let st' := run fetchCurrentUserProfile newcomer_state in
  profiles (mirror st') !! "N" = currentUserProfile (client st') ∧
  is_Some (currentUserProfile (client st')) ∧
  (profiles (mirror newcomer_state) !! "N" = None ->
   currentUserProfile (client st') =
     Some (mkProfile (defaultUsername "N") "Hello, I am new here!" [] [] 0 [])).
Proof.
  destruct (fetchCurrentUserProfile_creates_lazily newcomer_state) as (_ & _ & H).
  apply (H "N"); reflexivity.
Defined.

(** ** Purchase and sale of a ticket *)

(** X17.  A purchase that is reported done, by a client whose cached wallet
    is the stored one: the buyer's stored balance is one less and the
    holding list has one more ticket of the target (a new entry with count 1
    under the target's name, or the count of the existing entry raised by
    one); the target has earned one more; one transfer of 1 from the buyer
    to the target has been submitted; and since nobody is credited in the
    store, the sum of the stored balances is one less.  No other wallet and
    no other profile is touched. *)
Theorem purchase_effect st s T w0 :
  currentWalletAddress (client st) = Some s ->
  wallets (mirror st) !! s = Some w0 ->
  walletData (client st) = w0 ->
  let st' := run (handleBuyTicket T) st in
  bought st st' ->
  ∃ pT, profiles (mirror st) !! T = Some pT ∧
    wallets (mirror st') !! s =
      Some (mkWallet (gor_balance w0 - 1)
              (holding_after_buy T (username pT) (tickets_holding w0))) ∧
    (∀ a, a ≠ s -> wallets (mirror st') !! a = wallets (mirror st) !! a) ∧
    profiles (mirror st') !! T =
      Some (set_tickets_earned (tickets_earned pT + 1) pT) ∧
    (∀ a, a ≠ T -> profiles (mirror st') !! a = profiles (mirror st) !! a) ∧
    total_balance (mirror st') = total_balance (mirror st) - 1 ∧
    submitted st' = submitted st ++ [mkTransfer s T 1].
Proof.
  intros Hme Hw0 Hc st' Hok.
  destruct (handleBuyTicket_success st s T Hme Hok)
    as (Hne & _ & pT & HpT & Hw & Hp & _ & Hsub).
  fold st' in Hw, Hp, Hsub. rewrite Hc in Hw.
  exists pT. split; [done|]. unfold total_balance. rewrite Hw, Hp.
  repeat split.
  - by rewrite lookup_alter_eq, Hw0.
  - intros a Ha. by rewrite lookup_alter_ne.
  - by rewrite lookup_alter_eq, HpT.
  - intros a Ha. by rewrite lookup_alter_ne.
  - rewrite (alter_Some_insert _ _ _ w0 Hw0).
    rewrite (sum_balances_insert_Some _ s _ w0 Hw0). simpl. lia.
  - done.
Qed.

Lemma purchase_effect_witness :
  let st' := run (handleBuyTicket "B") fresh_state in
  ∃ pT, profiles (mirror fresh_state) !! "B" = Some pT ∧
    wallets (mirror st') !! "A" =
      Some (mkWallet (gor_balance (mkWallet 5 []) - 1)
              (holding_after_buy "B" (username pT) (tickets_holding (mkWallet 5 [])))) ∧
    (∀ a, a ≠ "A" -> wallets (mirror st') !! a = wallets (mirror fresh_state) !! a) ∧
    profiles (mirror st') !! "B" =
      Some (set_tickets_earned (tickets_earned pT + 1) pT) ∧
    (∀ a, a ≠ "B" -> profiles (mirror st') !! a = profiles (mirror fresh_state) !! a) ∧
    total_balance (mirror st') = total_balance (mirror fresh_state) - 1 ∧
    submitted st' = submitted fresh_state ++ [mkTransfer "A" "B" 1].
Proof.
  apply (purchase_effect fresh_state "A" "B" (mkWallet 5 [])).
  - reflexivity.
  - reflexivity.
  - reflexivity.
  - toast_shown.
Defined.

(** X18.  A sale that is reported done, by a client whose cached wallet is
    the stored one: the seller held a ticket of the target with a count
    other than 0; the stored balance is one more; the entry is removed when
    its count was 1 and lowered by one otherwise; the target's
    [tickets_earned] is lowered by one but not below 0; and the sum of the
    stored balances is one more. *)
Theorem sale_effect st s T w0 :
  currentWalletAddress (client st) = Some s ->
  wallets (mirror st) !! s = Some w0 ->
  walletData (client st) = w0 ->
  let st' := run (handleSellTicket T) st in
  sold st st' ->
  ∃ i t pT,
    findIndex T (tickets_holding w0) = Some (i, t) ∧ t_count t ≠ 0 ∧
    profiles (mirror st) !! T = Some pT ∧
    wallets (mirror st') !! s =
      Some (mkWallet (gor_balance w0 + 1)
              (if decide (t_count t = 1) then delete i (tickets_holding w0)
               else <[i := set_count (t_count t - 1) t]> (tickets_holding w0))) ∧
    (∀ a, a ≠ s -> wallets (mirror st') !! a = wallets (mirror st) !! a) ∧
    tickets_earned <$> profiles (mirror st') !! T =
      Some (Z.max 0 (tickets_earned pT - 1)) ∧
    (∀ a, a ≠ T -> profiles (mirror st') !! a = profiles (mirror st) !! a) ∧
    total_balance (mirror st') = total_balance (mirror st) + 1.
Proof.
  intros Hme Hw0 Hc st' Hok.
  destruct (handleSellTicket_success st s T Hme Hok)
    as (i & t & pT & Hf & Hcount & HpT & Hw & Hp & _).
  fold st' in Hw, Hp. rewrite Hc in Hw, Hf.
  exists i, t, pT. split; [done|]. split; [done|]. split; [done|].
  unfold total_balance. rewrite Hw, Hp.
  unfold holding_after_sell. rewrite Hf. simpl.
  assert (∀ x, delete i (<[i:=x]> (tickets_holding w0)) = delete i (tickets_holding w0))
    as Hdel.
  { intros x. generalize (tickets_holding w0) as l. clear.
    induction i as [|i IH]; intros [|y l]; simpl; try done. by rewrite IH. }
  repeat split.
  - rewrite lookup_alter_eq, Hw0. simpl. do 2 f_equal.
    repeat case_decide; simpl in *; try lia; rewrite ?Hdel; done.
  - intros a Ha. by rewrite lookup_alter_ne.
  - by rewrite lookup_alter_eq, HpT.
  - intros a Ha. by rewrite lookup_alter_ne.
  - rewrite (alter_Some_insert _ _ _ w0 Hw0).
    rewrite (sum_balances_insert_Some _ s _ w0 Hw0). simpl. lia.
Qed.

Lemma sale_effect_witness :
  let st' := run (handleSellTicket "B") holder_state in
  ∃ i t pT,
    findIndex "B" (tickets_holding holder_wallet) = Some (i, t) ∧ t_count t ≠ 0 ∧
    profiles (mirror holder_state) !! "B" = Some pT ∧
    wallets (mirror st') !! "A" =
      Some (mkWallet (gor_balance holder_wallet + 1)
              (if decide (t_count t = 1) then delete i (tickets_holding holder_wallet)
               else <[i := set_count (t_count t - 1) t]> (tickets_holding holder_wallet))) ∧
    (∀ a, a ≠ "A" -> wallets (mirror st') !! a = wallets (mirror holder_state) !! a) ∧
    tickets_earned <$> profiles (mirror st') !! "B" =
      Some (Z.max 0 (tickets_earned pT - 1)) ∧
    (∀ a, a ≠ "B" -> profiles (mirror st') !! a = profiles (mirror holder_state) !! a) ∧
    total_balance (mirror st') = total_balance (mirror holder_state) + 1.
Proof.
  apply (sale_effect holder_state "A" "B" holder_wallet).
  - reflexivity.
  - reflexivity.
  - reflexivity.
  - toast_shown.
Defined.

(** X19.  A sale never reaches the ledger: it submits no transfer and asks
    for none, whatever happens.  A sale of a ticket the cached wallet does
    not hold, or holds with count 0, makes no store call either: one error
    message is all it does. *)
Theorem sale_stays_off_the_ledger st T :
  let st' := run (handleSellTicket T) st in
  let holding := tickets_holding (walletData (client st)) in
  submitted st' = submitted st ∧ chain st' = chain st ∧
  (findIndex T holding = None ∨
   (∃ i t, findIndex T holding = Some (i, t) ∧ t_count t = 0) ->
   mirror st' = mirror st ∧ client st' = client st ∧ faults st' = faults st ∧
   ∃ msg, shown st st' = [(Plain msg, SevError)]).
Proof.
  open_state st. unfold_all. simpl.
  destruct me as [s|], prof as [p|], conn; simpl.
  all: exec_all.
  all: split; [done|split; [done|]].
  all: intros Hpre.
  all: try (repeat split; try done; eexists; reduce_shown; reflexivity).
  all: exfalso; destruct Hpre as [?|(? & ? & ? & ?)]; congruence.
Qed.

Lemma sale_stays_off_the_ledger_witness :
  let st' := run (handleSellTicket "B") fresh_state in
  mirror st' = mirror fresh_state ∧ client st' = client fresh_state ∧
  faults st' = faults fresh_state ∧
  ∃ msg, shown fresh_state st' = [(Plain msg, SevError)].
Proof.
  destruct (sale_stays_off_the_ledger fresh_state "B") as (_ & _ & H).
  apply H. left. reflexivity.
Defined.

(** ** A store fault after the ledger has confirmed *)

(** X20.  The ledger comes first and nothing undoes it: when the ledger has
    confirmed the transfer of a tip or of a purchase and the first store
    call after it reports an error, the transfer stays submitted, the mirror
    store is exactly as before, and the last thing shown is the failure. *)
Theorem confirmed_transfer_is_not_undone st s prof target amount rest :
  currentWalletAddress (client st) = Some s ->
  currentUserProfile (client st) = Some prof ->
  connected (client st) = true ->
  s ≠ target ->
  hd Confirmed (chain st) = Confirmed ->
  faults st = true :: rest ->
  let cached := gor_balance (walletData (client st)) in
  (0 < amount -> amount <= cached ->
   let st' := run (handleTip target amount) st in
   submitted st' = submitted st ++ [mkTransfer s target amount] ∧
   mirror st' = mirror st ∧
   last (toasts st') = Some (Failure "Failed to tip: " NetworkError, SevError)) ∧
  (1 <= cached ->
   let st' := run (handleBuyTicket target) st in
   submitted st' = submitted st ++ [mkTransfer s target 1] ∧
   mirror st' = mirror st ∧
   last (toasts st') = Some (Failure "Failed to buy ticket: " NetworkError, SevError)).
Proof.
  open_state st. intros -> -> -> Hne Hch ->. unfold_all. simpl.
  split; intros; repeat (case_decide; simpl); try lia; try done.
  all: destruct ch as [|[] ch]; simpl in *; try done.
  all: exec_all.
  all: repeat split; try done; by rewrite last_snoc.
Qed.

Lemma confirmed_transfer_is_not_undone_witness :
  let st := with_faults [true] fresh_state in
  (let st' := run (handleTip "B" 3) st in
   submitted st' = submitted st ++ [mkTransfer "A" "B" 3] ∧
   mirror st' = mirror st ∧
   last (toasts st') = Some (Failure "Failed to tip: " NetworkError, SevError)) ∧
  (let st' := run (handleBuyTicket "B") st in
   submitted st' = submitted st ++ [mkTransfer "A" "B" 1] ∧
   mirror st' = mirror st ∧
   last (toasts st') = Some (Failure "Failed to buy ticket: " NetworkError, SevError)).
Proof.
  destruct (confirmed_transfer_is_not_undone (with_faults [true] fresh_state)
              "A" alice "B" 3 []) as [Htip Hbuy].
  - reflexivity.
  - reflexivity.
  - reflexivity.
  - discriminate.
  - reflexivity.
  - reflexivity.
  - split; [apply Htip|apply Hbuy]; simpl; lia.
Defined.

(** X21.  The store writes of a tip are not one transaction.  A tip that
    passes validation and is confirmed by the ledger, from a sender who has
    a wallet record: when the debit of the sender goes through and the read
    or the write of the recipient's wallet then fails, the transfer stays
    submitted, the sender's stored balance is the balance the client held
    minus the amount, and nobody is credited: no other wallet changes.  The
    sum of the stored balances has changed by what the sender's balance has
    changed by; it is down by exactly the amount when the balance the client
    held was the stored one.  No notification is recorded, and the last
    thing shown is the failure. *)
Theorem tip_can_debit_without_credit st s prof target amount w0 f g rest :
  currentWalletAddress (client st) = Some s ->
  currentUserProfile (client st) = Some prof ->
  connected (client st) = true ->
  s ≠ target ->
  0 < amount ->
  amount <= gor_balance (walletData (client st)) ->
  wallets (mirror st) !! s = Some w0 ->
  hd Confirmed (chain st) = Confirmed ->
  faults st = false :: f :: g :: rest ->
  f = true ∨ g = true ->
  let st' := run (handleTip target amount) st in
  let cached := gor_balance (walletData (client st)) in
  submitted st' = submitted st ++ [mkTransfer s target amount] ∧
  stored_balance (mirror st') s = Some (cached - amount) ∧
  (∀ a, a ≠ s -> wallets (mirror st') !! a = wallets (mirror st) !! a) ∧
  total_balance (mirror st') =
    total_balance (mirror st) - gor_balance w0 + (cached - amount) ∧
  (cached = gor_balance w0 ->
   total_balance (mirror st') = total_balance (mirror st) - amount) ∧
  notifications (mirror st') = notifications (mirror st) ∧
  last (toasts st') = Some (Failure "Failed to tip: " NetworkError, SevError).
Proof.
  open_state st. intros -> -> -> Hne Hpos Hle Hw0 Hch -> Hfg.
  unfold stored_balance, total_balance. unfold_all. simpl in *.
  repeat (case_decide; simpl); try lia; try done.
  destruct ch as [|[] ch]; simpl in *; try done.
  all: destruct f, g; simpl; try (by destruct Hfg).
  all: rewrite ?(lookup_alter_ne _ _ s target) by done.
  all: try (destruct (wallets m !! target) eqn:HT; simpl).
  all: rewrite ?lookup_alter_eq, ?Hw0; simpl.
  all: split; [done|].
  all: split; [done|].
  all: split; [intros a Ha; by rewrite lookup_alter_ne|].
  all: rewrite (alter_Some_insert _ _ _ w0 Hw0).
  all: rewrite (sum_balances_insert_Some _ s _ w0 Hw0); simpl.
  all: split; [lia|].
  all: split; [lia|].
  all: split; [done|by rewrite last_snoc].
Qed.

Lemma tip_can_debit_without_credit_witness :
  let st := half_failing_state in
  let st' := run (handleTip "B" 3) st in
  let cached := gor_balance (walletData (client st)) in
  submitted st' = submitted st ++ [mkTransfer "A" "B" 3] ∧
  stored_balance (mirror st') "A" = Some (cached - 3) ∧
  (∀ a, a ≠ "A" -> wallets (mirror st') !! a = wallets (mirror st) !! a) ∧
  total_balance (mirror st') =
    total_balance (mirror st) - gor_balance (mkWallet 5 []) + (cached - 3) ∧
  (cached = gor_balance (mkWallet 5 []) ->
   total_balance (mirror st') = total_balance (mirror st) - 3) ∧
  notifications (mirror st') = notifications (mirror st) ∧
  last (toasts st') = Some (Failure "Failed to tip: " NetworkError, SevError).
Proof.
  apply (tip_can_debit_without_credit half_failing_state "A" alice "B" 3
           (mkWallet 5 []) true false []).
  - reflexivity.
  - reflexivity.
  - reflexivity.
  - discriminate.
  - lia.
  - simpl. lia.
  - reflexivity.
  - reflexivity.
  - reflexivity.
  - by left.
Defined.

(** ** Posts and profiles *)

Lemma trimStart_blank s :
  Forall (fun c => is_whitespace c = true) (String.list_ascii_of_string (trimStart s)) <->
  Forall (fun c => is_whitespace c = true) (String.list_ascii_of_string s).
Proof.
  induction s as [|c s IH]; simpl; [done|].
  destruct (is_whitespace c) eqn:Hc; simpl; [|done].
  rewrite IH. split; [by constructor|by inversion 1].
Qed.

Lemma trimStart_empty s :
  trimStart s = EmptyString <->
  Forall (fun c => is_whitespace c = true) (String.list_ascii_of_string s).
Proof.
  induction s as [|c s IH]; simpl; [done|].
  destruct (is_whitespace c) eqn:Hc.
  - rewrite IH. split; [by constructor|by inversion 1].
  - split; [done|]. inversion 1; congruence.
Qed.

Lemma chars_rev_app s1 s2 :
  String.list_ascii_of_string (String.rev_app s1 s2) =
    reverse (String.list_ascii_of_string s1) ++ String.list_ascii_of_string s2.
Proof.
  revert s2. induction s1 as [|c s1 IH]; intros s2; simpl; [done|].
  rewrite IH. simpl. rewrite reverse_cons, <- app_assoc. done.
Qed.

Lemma chars_empty s : String.list_ascii_of_string s = [] <-> s = EmptyString.
Proof. destruct s; simpl; split; congruence. Qed.

(** [!s.trim()] holds exactly of the strings made of white space. *)
Lemma blank_spec s :
  blank s = true <->
  Forall (fun c => is_whitespace c = true) (String.list_ascii_of_string s).
Proof.
  unfold blank, trim.
  set (z := trimStart s).
  set (y := trimStart (String.rev z)).
  assert (String.rev y = EmptyString <-> y = EmptyString) as Hrev.
  { rewrite <- !chars_empty. unfold String.rev. rewrite chars_rev_app, app_nil_r.
    split; [|by intros ->]. intros Hr. apply (f_equal reverse) in Hr.
    by rewrite reverse_involutive in Hr. }
  transitivity (y = EmptyString).
  { rewrite <- Hrev. destruct (String.rev y); split; congruence. }
  unfold y. rewrite trimStart_empty. unfold String.rev.
  rewrite chars_rev_app, app_nil_r, Forall_reverse.
  apply trimStart_blank.
Qed.

(** X22.  Input made of white space only (the empty string included) is
    refused before anything is read or written: a post without image, and a
    profile whose new name is blank, leave the store alone, make no store
    call and show one error, with the composer left as typed; a blank
    comment is dropped without a word. *)
Theorem blank_input_is_refused st text bio postId :
  Forall (fun c => is_whitespace c = true) (String.list_ascii_of_string text) ->
  (let r := handlePost (mkComposer text None) st in
   r.1 = Ret (mkComposer text None) ∧
   mirror r.2 = mirror st ∧ faults r.2 = faults st ∧
   shown st r.2 = [(Plain "Post content or image cannot be empty.", SevError)]) ∧
  (let st' := run (handleSaveProfile text bio) st in
   mirror st' = mirror st ∧ faults st' = faults st ∧
   ∃ msg, shown st st' = [(Plain msg, SevError)]) ∧
  run (handleCommentSubmit postId text) st = st.
Proof.
  intros Hb%blank_spec. open_state st. unfold_all. simpl. rewrite Hb. simpl.
  split; [|split; [|done]].
  - repeat split; try done. by reduce_shown.
  - destruct me; simpl; repeat split; try done; eexists; by reduce_shown.
Qed.

Lemma blank_input_is_refused_witness :
  (let r := handlePost (mkComposer "  " None) fresh_state in
   r.1 = Ret (mkComposer "  " None) ∧
   mirror r.2 = mirror fresh_state ∧ faults r.2 = faults fresh_state ∧
   shown fresh_state r.2 =
     [(Plain "Post content or image cannot be empty.", SevError)]) ∧
  (let st' := run (handleSaveProfile "  " "bio") fresh_state in
   mirror st' = mirror fresh_state ∧ faults st' = faults fresh_state ∧
   ∃ msg, shown fresh_state st' = [(Plain msg, SevError)]) ∧
  run (handleCommentSubmit 1 "  ") fresh_state = fresh_state.
Proof.
  apply (blank_input_is_refused fresh_state "  " "bio" 1%nat).
  repeat constructor.
Defined.

(** X23.  A post that is reported created is one new row under an id no
    post had: written under the poster's address and display name, with the
    text as typed, no likes, no reposts and all three counters 0 (so its
    counters match).  With an image its URL is the public URL of the upload,
    which is then neither missing nor empty; without one the text is not
    blank.  The composer is cleared and nothing else in the store changes. *)
Theorem post_is_created st composer me prof :
  currentWalletAddress (client st) = Some me ->
  currentUserProfile (client st) = Some prof ->
  let r := handlePost composer st in
  posted st r.2 ->
  ∃ id url,
    posts (mirror st) !! id = None ∧
    posts (mirror r.2) =
      <[id := mkPost me (or_else (username prof) (defaultUsername me))
                (newPostContent composer) url [] [] 0 0 0]> (posts (mirror st)) ∧
    match newPostImage composer with
    | Some f => url = file_publicUrl f ∧ url ≠ None ∧ url ≠ Some EmptyString
    | None => url = None ∧ blank (newPostContent composer) = false
    end ∧
    (∀ p, posts (mirror r.2) !! id = Some p -> counters_match p) ∧
    r.1 = Ret (mkComposer EmptyString None) ∧
    profiles (mirror r.2) = profiles (mirror st) ∧
    wallets (mirror r.2) = wallets (mirror st) ∧
    comments (mirror r.2) = comments (mirror st) ∧
    notifications (mirror r.2) = notifications (mirror st).
Proof.
  open_state st. intros -> ->. unfold_said. unfold_all. simpl.
  destruct composer as [txt [img|]]; simpl.
  all: exec_all; try absurd_toast.
  all: intros _; eexists (fresh (dom (posts m))), _.
  all: split; [apply not_elem_of_dom, is_fresh|].
  all: split; [reflexivity|].
  all: split; [by repeat split|].
  all: split; [|done].
  all: intros q; rewrite lookup_insert_eq; intros [= <-]; by split.
Qed.

Lemma post_is_created_witness :
  let r := handlePost (mkComposer "hi" None) busy_state in
  ∃ id url,
    posts (mirror busy_state) !! id = None ∧
    posts (mirror r.2) =
      <[id := mkPost "A" (or_else (username alice) (defaultUsername "A"))
                (newPostContent (mkComposer "hi" None)) url [] [] 0 0 0]>
        (posts (mirror busy_state)) ∧
    match newPostImage (mkComposer "hi" None) with
    | Some f => url = file_publicUrl f ∧ url ≠ None ∧ url ≠ Some EmptyString
    | None => url = None ∧ blank (newPostContent (mkComposer "hi" None)) = false
    end ∧
    (∀ p, posts (mirror r.2) !! id = Some p -> counters_match p) ∧
    r.1 = Ret (mkComposer EmptyString None) ∧
    profiles (mirror r.2) = profiles (mirror busy_state) ∧
    wallets (mirror r.2) = wallets (mirror busy_state) ∧
    comments (mirror r.2) = comments (mirror busy_state) ∧
    notifications (mirror r.2) = notifications (mirror busy_state).
Proof.
  apply (post_is_created busy_state (mkComposer "hi" None) "A" alice).
  - reflexivity.
  - reflexivity.
  - toast_shown.
Defined.

(** X24.  A profile edit that is reported saved has a name that is not
    blank, and it has rewritten the name and bio of the editor's profile and
    nothing else of it.  A post or comment is either as it was or, when it
    is the editor's, carries the new name; when no store call fails, every
    post and every comment of the editor carries the new name (with a
    failing call they may not: the results of those two updates are not
    looked at).  Wallets and notifications are untouched. *)
Theorem saved_profile_is_propagated st me u b :
  currentWalletAddress (client st) = Some me ->
  let st' := run (handleSaveProfile u b) st in
  profile_saved st st' ->
  blank u = false ∧
  profiles (mirror st') = alter (set_username_bio u b) me (profiles (mirror st)) ∧
  wallets (mirror st') = wallets (mirror st) ∧
  notifications (mirror st') = notifications (mirror st) ∧
  (∀ id p, posts (mirror st) !! id = Some p ->
     posts (mirror st') !! id = Some p ∨
     author_address p = me ∧ posts (mirror st') !! id = Some (set_p_username u p)) ∧
  (∀ i c, comments (mirror st) !! i = Some c ->
     comments (mirror st') !! i = Some c ∨
     c_author_address c = me ∧ comments (mirror st') !! i = Some (set_c_username u c)) ∧
  (faults st = [] ->
   (∀ id p, posts (mirror st') !! id = Some p -> author_address p = me ->
            p_username p = u) ∧
   (∀ i c, comments (mirror st') !! i = Some c -> c_author_address c = me ->
           c_username c = u)).
Proof.
  open_state st. intros ->. unfold_said. unfold_all. simpl.
  exec_all; try absurd_toast.
  all: intros _; split; [done|]; split; [done|]; split; [done|]; split; [done|].
  all: split; [intros id p Hp|split; [intros i c Hc|intros Hf; try done]].
  all: rewrite ?lookup_fmap, ?list_lookup_fmap, ?Hp, ?Hc; simpl.
  all: try (case_decide; [right|left]; done).
  all: try (by left).
  all: split; [intros id p|intros i c].
  all: rewrite ?lookup_fmap, ?list_lookup_fmap.
  all: intros (q & Hq & ->)%fmap_Some; case_decide; simpl; congruence.
Qed.

Lemma saved_profile_is_propagated_witness :
  let st' := run (handleSaveProfile "al" "gm") busy_state in
  blank "al" = false ∧
  profiles (mirror st') =
    alter (set_username_bio "al" "gm") "A" (profiles (mirror busy_state)) ∧
  wallets (mirror st') = wallets (mirror busy_state) ∧
  notifications (mirror st') = notifications (mirror busy_state) ∧
  (∀ id p, posts (mirror busy_state) !! id = Some p ->
     posts (mirror st') !! id = Some p ∨
     author_address p = "A" ∧ posts (mirror st') !! id = Some (set_p_username "al" p)) ∧
  (∀ i c, comments (mirror busy_state) !! i = Some c ->
     comments (mirror st') !! i = Some c ∨
     c_author_address c = "A" ∧
     comments (mirror st') !! i = Some (set_c_username "al" c)) ∧
  (faults busy_state = [] ->
   (∀ id p, posts (mirror st') !! id = Some p -> author_address p = "A" ->
            p_username p = "al") ∧
   (∀ i c, comments (mirror st') !! i = Some c -> c_author_address c = "A" ->
           c_username c = "al")).
Proof.
  apply (saved_profile_is_propagated busy_state "A" "al" "gm").
  - reflexivity.
  - toast_shown.
Defined.

(** X25.  When the update of the profile row itself reports an error the
    edit stops there: no post and no comment is renamed, the store is as it
    was, one store call has been made and the failure is shown. *)
Theorem failed_profile_update_changes_nothing st me u b rest :
  currentWalletAddress (client st) = Some me ->
  blank u = false ->
  faults st = true :: rest ->
  let st' := run (handleSaveProfile u b) st in
  mirror st' = mirror st ∧ faults st' = rest ∧
  shown st st' = [(Failure "Failed to update profile: " NetworkError, SevError)].
Proof.
  open_state st. intros -> Hb ->. unfold_all. simpl. rewrite Hb. simpl.
  repeat split; try done. by reduce_shown.
Qed.

Lemma failed_profile_update_changes_nothing_witness :
  let st' := run (handleSaveProfile "al" "gm") failing_state in
  mirror st' = mirror failing_state ∧ faults st' = [] ∧
  shown failing_state st' =
    [(Failure "Failed to update profile: " NetworkError, SevError)].
Proof.
  apply (failed_profile_update_changes_nothing failing_state "A" "al" "gm" []).
  - reflexivity.
  - reflexivity.
  - reflexivity.
Defined.

(** ** Notifications *)

(** X26.  Marking a notification read shows nothing, success or failure,
    and touches nothing but the [read] flag of that one notification, and
    that only when it is addressed to the connected address: somebody
    else's notification, an id that does not exist and a disconnected
    client all leave the store as it is. *)
Theorem mark_read_touches_own_notification_only st id :
  let m := mirror st in
  let st' := run (handleMarkNotificationRead id) st in
  let m' := mirror st' in
  profiles m' = profiles m ∧ wallets m' = wallets m ∧ posts m' = posts m ∧
  comments m' = comments m ∧ shown st st' = [] ∧
  length (notifications m') = length (notifications m) ∧
  ∀ i n, notifications m !! i = Some n ->
    notifications m' !! i = Some n ∨
    i = id ∧ currentWalletAddress (client st) = Some (recipient_address n) ∧
    notifications m' !! i = Some (set_read true n).
Proof.
  open_state st. unfold_all. simpl.
  destruct me as [s|]; simpl.
  2: { repeat split; try done; try (unfold shown; simpl; apply drop_all); auto. }
  exec_all.
  all: repeat split; try done; try (unfold shown; simpl; apply drop_all).
  all: try (intros; by left).
  - apply length_alter.
  - intros i n Hn. rewrite list_lookup_alter. case_decide; [|by left]. subst.
    rewrite Hn. simpl. case_decide; [right|left]; subst; done.
  - apply length_alter.
  - intros i n Hn. rewrite list_lookup_alter. case_decide; [|by left]. subst.
    rewrite Hn. simpl. case_decide; [right|left]; subst; done.
Qed.

Lemma mark_read_touches_own_notification_only_witness :
  let n := mkNotification "B" "follow" "alice started following you!" None "A" false in
  let m' := mirror (run (handleMarkNotificationRead 1) busy_state) in
  notifications m' !! 1%nat = Some n ∨
  1%nat = 1%nat ∧
  currentWalletAddress (client busy_state) = Some (recipient_address n) ∧
  notifications m' !! 1%nat = Some (set_read true n).
Proof.
  destruct (mark_read_touches_own_notification_only busy_state 1)
    as (_ & _ & _ & _ & _ & _ & H).
  apply (H 1%nat). reflexivity.
Defined.

Lemma filter_imap_snd {A} (P : A -> Prop) `{∀ x, Decision (P x)} (l : list A) k :
  length (filter (fun r : nat * A => P r.2) (imap (fun i x => (k + i, x)%nat) l)) =
  length (filter P l).
Proof.
  revert k. induction l as [|x l IH]; intros k; [done|].
  rewrite imap_cons, !filter_cons.
  assert (imap ((fun i x0 => (k + i, x0)%nat) ∘ S) l =
          imap (fun i x0 => (S k + i, x0)%nat) l) as ->.
  { apply imap_ext. intros i y _. unfold compose. f_equal. lia. }
  specialize (IH (S k)).
  destruct (decide (P (k + 0, x)%nat.2)), (decide (P x)); try done.
  all: cbn [length]; by rewrite IH.
Qed.

(** The badge counts the stored notifications of the address that are
    unread. *)
Lemma unreadCount_notifications_of a m :
  unreadCount (notifications_of a m) =
  length (filter (fun n => read n = false ∧ recipient_address n = a)
            (notifications m)).
Proof.
  unfold unreadCount, notifications_of.
  rewrite filter_reverse, length_reverse, list_filter_filter.
  assert (imap pair (notifications m) =
          imap (fun i x => (0 + i, x)%nat) (notifications m)) as -> by done.
  exact (filter_imap_snd (fun n => read n = false ∧ recipient_address n = a)
           (notifications m) 0).
Qed.

Lemma count_after_alter {A} (Q : A -> Prop) `{∀ x, Decision (Q x)}
    (f : A -> A) (l : list A) id :
  (∀ x, Q (f x) -> Q x) ->
  (length (filter Q (alter f id l)) <= length (filter Q l))%nat ∧
  (∀ x, l !! id = Some x -> Q x -> ¬ Q (f x) ->
        S (length (filter Q (alter f id l))) = length (filter Q l)).
Proof.
  intros Hf. revert id.
  induction l as [|y l IH]; intros id; [split; [done|by intros]|].
  destruct id as [|id]; simpl.
  - rewrite !filter_cons. split.
    + destruct (decide (Q (f y))) as [Hq|Hq], (decide (Q y)); simpl; try lia.
      by apply Hf in Hq.
    + intros x [= <-] Hx Hfx. by rewrite decide_False, decide_True.
  - change (list_alter f id l) with (alter f id l).
    destruct (IH id) as [Hle Heq]. rewrite !filter_cons. split.
    + destruct (decide (Q y)); simpl; lia.
    + intros x Hx HQ HfQ. specialize (Heq x Hx HQ HfQ).
      destruct (decide (Q y)); simpl; lia.
Qed.

(** X27.  The unread badge (the unread notifications among those
    [fetchNotifications] returns for the address) never goes up when a
    notification is marked read, and goes down by exactly one when the
    notification is an unread one of the connected address and the store
    call reports no error. *)
Theorem marking_read_lowers_the_badge st me id :
  currentWalletAddress (client st) = Some me ->
  let st' := run (handleMarkNotificationRead id) st in
  let badge := fun s => unreadCount (notifications_of me (mirror s)) in
  (badge st' <= badge st)%nat ∧
  (∀ n, notifications (mirror st) !! id = Some n ->
        recipient_address n = me -> read n = false ->
        hd false (faults st) = false ->
        S (badge st') = badge st).
Proof.
  open_state st. intros ->. rewrite !unreadCount_notifications_of.
  unfold_all. simpl.
  destruct (count_after_alter
              (fun n => read n = false ∧ recipient_address n = me)
              (fun n => if decide (recipient_address n = me)
                        then set_read true n else n)
              (notifications m) id) as [Hle Heq].
  { intros n. case_decide; simpl; [|done]. intros [? ?]. done. }
  exec_all; simpl in *; split; try done; try lia.
  all: intros n Hn Ha Hr Hf; try done; eapply Heq; try done.
  all: rewrite decide_True by done; simpl; intros [? ?]; done.
Qed.

Lemma marking_read_lowers_the_badge_witness :
  let st' := run (handleMarkNotificationRead 0) busy_state in
  S (unreadCount (notifications_of "A" (mirror st'))) =
  unreadCount (notifications_of "A" (mirror busy_state)).
Proof.
  destruct (marking_read_lowers_the_badge busy_state "A" 0%nat eq_refl) as [_ H].
  apply (H (mkNotification "A" "comment" "bob commented on your post" (Some 1%nat)
              "B" false)); reflexivity.
Defined.

Lemma alter_as_imap {A} (f : A -> A) (id : nat) (l : list A) :
  alter f id l = imap (fun i x => if decide (i = id) then f x else x) l.
Proof.
  apply list_eq. intros j. rewrite list_lookup_imap, list_lookup_alter.
  destruct (decide (id = j)) as [->|Hne].
  - destruct (l !! j); simpl; [|done]. by rewrite decide_True.
  - destruct (l !! j); simpl; [|done]. by rewrite decide_False.
Qed.

Lemma filter_fmap_same {A} (P : A -> Prop) `{∀ x, Decision (P x)} (h : A -> A) (l : list A) :
  (∀ x, P (h x) <-> P x) -> filter P (h <$> l) = h <$> filter P l.
Proof.
  intros Hh. induction l as [|x l IH]; [done|].
  rewrite fmap_cons, !filter_cons, IH.
  destruct (decide (P (h x))) as [Hp|Hp], (decide (P x)) as [Hx|Hx]; try done.
  - destruct Hx. by apply Hh.
  - destruct Hp. by apply Hh.
Qed.

(** The rows of an address after one of them has been marked read. *)
Lemma notifications_of_mark_read a m id :
  notifications_of a
    (set_notifications
       (alter (fun n => if decide (recipient_address n = a) then set_read true n else n)
          id (notifications m)) m) =
  (fun r => if decide (r.1 = id) then (r.1, set_read true r.2) else r)
    <$> notifications_of a m.
Proof.
  unfold notifications_of. destruct m as [pr wa po co no]. simpl.
  rewrite fmap_reverse. f_equal.
  rewrite alter_as_imap.
  set (h := fun r : nat * Notification =>
              (r.1, if decide (r.1 = id)
                    then (if decide (recipient_address r.2 = a)
                          then set_read true r.2 else r.2)
                    else r.2)).
  assert (imap pair
            (imap (fun i x => if decide (i = id)
                              then (if decide (recipient_address x = a)
                                    then set_read true x else x)
                              else x) no) = h <$> imap pair no) as ->.
  { apply list_eq. intros j. rewrite list_lookup_fmap, !list_lookup_imap.
    destruct (no !! j); done. }
  rewrite filter_fmap_same.
  2: { intros [i n]. unfold h. simpl. repeat case_decide; done. }
  apply list_fmap_ext. intros j [i n] Hr.
  apply list_elem_of_lookup_2, list_elem_of_filter in Hr as [Hr _].
  unfold h. simpl in *. repeat case_decide; done.
Qed.

(** X28.  Fetch, mark, fetch again: when no store call fails, the
    notifications fetched after one has been marked read are the ones
    fetched before, in the same order, with that one (if it is among them)
    read and none of the others changed.  Fetching changes nothing in the
    store. *)
Theorem marked_notification_is_read_on_refetch st me id :
  currentWalletAddress (client st) = Some me ->
  faults st = [] ->
  let r1 := fetchNotifications st in
  let st2 := run (handleMarkNotificationRead id) r1.2 in
  let r3 := fetchNotifications st2 in
  mirror r1.2 = mirror st ∧ mirror r3.2 = mirror st2 ∧
  ∃ l, r1.1 = Ret (Some l) ∧
       (∀ i n, (i, n) ∈ l <->
               notifications (mirror st) !! i = Some n ∧ recipient_address n = me) ∧
       r3.1 = Ret (Some ((fun r => if decide (r.1 = id)
                                   then (r.1, set_read true r.2) else r) <$> l)).
Proof.
  open_state st. intros -> ->. unfold_all. simpl.
  split; [done|]. split; [done|]. eexists. split; [reflexivity|]. split.
  - intros i n. unfold notifications_of.
    rewrite elem_of_reverse, list_elem_of_filter, elem_of_lookup_imap. simpl.
    split.
    + intros [Hr (j & y & [= -> ->] & Hy)]. done.
    + intros [Hn Hr]. split; [done|]. by exists i, n.
  - do 2 f_equal. apply notifications_of_mark_read.
Qed.

Lemma marked_notification_is_read_on_refetch_witness :
  let r1 := fetchNotifications busy_state in
  let st2 := run (handleMarkNotificationRead 0) r1.2 in
  let r3 := fetchNotifications st2 in
  mirror r1.2 = mirror busy_state ∧ mirror r3.2 = mirror st2 ∧
  ∃ l, r1.1 = Ret (Some l) ∧
       (∀ i n, (i, n) ∈ l <->
               notifications (mirror busy_state) !! i = Some n ∧
               recipient_address n = "A") ∧
       r3.1 = Ret (Some ((fun r => if decide (r.1 = 0%nat)
                                   then (r.1, set_read true r.2) else r) <$> l)).
Proof.
  apply (marked_notification_is_read_on_refetch busy_state "A" 0%nat); reflexivity.
Defined.

(** ** Trending users *)

Lemma insert_by_score_perm x l : insert_by_score x l ≡ₚ x :: l.
Proof.
  induction l as [|y l IH]; simpl; [done|].
  case_decide; [done|]. rewrite IH. apply Permutation_swap.
Qed.

Lemma sort_by_score_perm l : sort_by_score l ≡ₚ l.
Proof.
  induction l as [|x l IH]; simpl; [done|].
  rewrite insert_by_score_perm. by rewrite IH.
Qed.

Lemma insert_by_score_sorted x l :
  StronglySorted by_score l -> StronglySorted by_score (insert_by_score x l).
Proof.
  induction 1 as [|y l Hl IH Hy]; simpl.
  - repeat constructor.
  - case_decide.
    + constructor; [by constructor|]. constructor; [done|].
      eapply Forall_impl; [exact Hy|]. unfold by_score. intros; simpl in *. lia.
    + constructor; [done|].
      rewrite insert_by_score_perm. constructor; [unfold by_score; lia|done].
Qed.

Lemma sort_by_score_sorted l : StronglySorted by_score (sort_by_score l).
Proof.
  induction l as [|x l IH]; simpl; [constructor|]. by apply insert_by_score_sorted.
Qed.

(** The sort is stable: users of one score stay in the order of the input. *)
Lemma sort_by_score_stable k l :
  filter (fun u => trendingScore u.2 = k) (sort_by_score l) =
  filter (fun u => trendingScore u.2 = k) l.
Proof.
  assert (∀ x l, filter (fun u : address * Profile => trendingScore u.2 = k)
                   (insert_by_score x l) =
                 filter (fun u => trendingScore u.2 = k) (x :: l)) as Hins.
  { intros x l'. induction l' as [|y l' IH]; simpl; [done|].
    case_decide as Hle; [done|].
    rewrite (filter_cons _ y), IH, !filter_cons.
    repeat case_decide; try done; lia. }
  induction l as [|x l IH]; simpl; [done|].
  by rewrite Hins, !filter_cons, IH.
Qed.

(** X29.  The trending list holds at most five users, each of them a known
    user other than the connected address; with five other users or fewer
    it holds them all. *)
Theorem trending_users_are_others allUsers me :
  let others := filter (fun u => Some u.1 ≠ me) allUsers in
  let result := getTrendingUsers allUsers me in
  (length result <= 5)%nat ∧
  (∀ u, u ∈ result -> u ∈ allUsers ∧ Some u.1 ≠ me) ∧
  ((length others <= 5)%nat -> result ≡ₚ others).
Proof.
  unfold getTrendingUsers. simpl. split; [|split].
  - rewrite length_take. lia.
  - intros u Hu. apply elem_of_take in Hu as (i & Hu%list_elem_of_lookup_2 & _).
    rewrite sort_by_score_perm in Hu. by apply list_elem_of_filter in Hu as [? ?].
  - intros Hle. rewrite take_ge; [apply sort_by_score_perm|].
    by rewrite sort_by_score_perm.
Qed.

Lemma trending_users_are_others_witness :
  getTrendingUsers (take 5 seven_users) (Some "A") ≡ₚ
  filter (fun u => Some u.1 ≠ Some "A") (take 5 seven_users).
Proof.
  destruct (trending_users_are_others (take 5 seven_users) (Some "A")) as (_ & _ & H).
  apply H. vm_compute. lia.
Defined.

(** X30.  The trending list is in descending order of score
    ([tickets_earned] plus the number of followers), and nobody left out of
    it scores higher than anybody in it. *)
Theorem trending_users_are_the_top allUsers me :
  let result := getTrendingUsers allUsers me in
  StronglySorted by_score result ∧
  ∀ u v, u ∈ allUsers -> Some u.1 ≠ me -> u ∉ result -> v ∈ result ->
         trendingScore u.2 <= trendingScore v.2.
Proof.
  unfold getTrendingUsers. simpl.
  set (sorted := sort_by_score (filter (fun u => Some u.1 ≠ me) allUsers)).
  pose proof (sort_by_score_sorted (filter (fun u => Some u.1 ≠ me) allUsers)) as Hs.
  fold sorted in Hs. rewrite <- (take_drop 5 sorted) in Hs.
  apply StronglySorted_app in Hs as (Hcross & Htake & _).
  split; [done|]. intros u v Hu Hme Hnot Hv.
  assert (u ∈ sorted) as Hin.
  { unfold sorted. rewrite sort_by_score_perm. by apply list_elem_of_filter. }
  rewrite <- (take_drop 5 sorted) in Hin. apply elem_of_app in Hin as [?|Hd]; [done|].
  exact (Hcross v u Hv Hd).
Qed.

Lemma trending_users_are_the_top_witness :
  trendingScore ("E", bob).2 <= trendingScore ("G", set_tickets_earned 2 alice).2.
Proof.
  destruct (trending_users_are_the_top seven_users (Some "A")) as [_ H].
  apply H.
  - repeat constructor.
  - discriminate.
  - intros Hin. apply list_elem_of_In in Hin. vm_compute in Hin.
    intuition discriminate.
  - apply list_elem_of_In. vm_compute. auto 10.
Defined.
